(** * The transcription request lifecycle of [src/project/src/App.tsx]

    A shallow embedding of the React component [App]: its state cells, the
    handlers [handleFileSelect], [transcribeAudio] and [resetApp], and the
    classification of responses and failures, followed by the properties of
    the lifecycle.

    Handlers never read a state cell other than through the closure they were
    created in, and they act on the component only by calling state setters
    and browser functions.  A handler is therefore modelled as a computation
    that emits the calls it makes, in order, and may end by throwing; the
    component state after the handler is the fold of the emitted calls.
    [console.log] calls have no effect on the state and are left out. *)

From Stdlib Require Import String Ascii List NArith Bool Lia PrimFloat DecimalString.
Import ListNotations.

#[local] Open Scope string_scope.
#[local] Set Warnings "-register-all".

(** ** JavaScript strings and values *)

(** [s.startsWith(p)] and [s.includes(needle)].  All needles in the program
    are ASCII, for which matching on the bytes of the UTF-8 form agrees with
    matching on UTF-16 code units. *)
Definition startsWith (s p : string) : bool := String.prefix p s.

Fixpoint includes (s needle : string) : bool :=
  String.prefix needle s ||
  match s with
  | EmptyString => false
  | String _ rest => includes rest needle
  end.

(** Template-literal rendering of a non-negative integer. *)
Definition decimal (n : N) : string := NilZero.string_of_uint (N.to_uint n).

(** A JavaScript value as [JSON.parse] can return it, plus [undefined] for a
    property that is not there.  Numbers are IEEE doubles. *)
Inductive JSValue : Type :=
| JUndefined
| JNull
| JBool (b : bool)
| JNumber (x : float)
| JString (s : string)
| JArray (items : list JSValue)
| JObject (fields : list (string * JSValue)).

(** ToBoolean. *)
Definition truthy (v : JSValue) : bool :=
  match v with
  | JUndefined | JNull => false
  | JBool b => b
  | JNumber x => negb (PrimFloat.eqb x 0%float || PrimFloat.is_nan x)
  | JString s => negb (String.eqb s EmptyString)
  | JArray _ | JObject _ => true
  end.

Definition typeof (v : JSValue) : string :=
  match v with
  | JUndefined => "undefined"
  | JBool _ => "boolean"
  | JNumber _ => "number"
  | JString _ => "string"
  | JNull | JArray _ | JObject _ => "object"
  end.

(** Own-property lookup in an object; fields are kept in insertion order, one
    entry per key. *)
Fixpoint lookup (fields : list (string * JSValue)) (key : string) : option JSValue :=
  match fields with
  | [] => None
  | (k, v) :: rest => if String.eqb k key then Some v else lookup rest key
  end.

(** ** Data of the component *)

Module File.
(** The attributes of a DOM [File] that the component reads. *)
Record t : Type := make { name : string; size : N; type : string }.
End File.

Module JsError.
(** An instance of [Error] (which includes [DOMException]). *)
Record t : Type := make {
  name : string;
  message : string;
  stack : string;
  cause : JSValue
}.
End JsError.

(** What a [throw] (or a rejected promise) carries. *)
Inductive Thrown : Type :=
| ThrownError (e : JsError.t)
| ThrownValue (v : JSValue).

(** The diagnostic bundle kept in [fullError]. *)
Inductive Diagnostic : Type :=
| ErrorDetails (name message stack : string) (cause : JSValue) (timestamp : string)
| ValueDetails (type : string) (value : JSValue) (timestamp : string).

Inductive Status : Type := Idle | Uploading | Processing | Success | Error.

(** [interface TranscriptionState]; an optional field that an object literal
    does not mention is [None]. *)
Record TranscriptionState : Type := {
  status : Status;
  transcript : option JSValue;
  error : option string;
  progress : option N;
  fullError : option Diagnostic
}.

Definition just (s : Status) : TranscriptionState :=
  {| status := s; transcript := None; error := None; progress := None; fullError := None |}.

Definition with_progress (s : Status) (p : N) : TranscriptionState :=
  {| status := s; transcript := None; error := None; progress := Some p; fullError := None |}.

Definition with_error (msg : string) (d : option Diagnostic) : TranscriptionState :=
  {| status := Error; transcript := None; error := Some msg; progress := None; fullError := d |}.

Definition with_transcript (v : JSValue) (p : N) : TranscriptionState :=
  {| status := Success; transcript := Some v; error := None; progress := Some p; fullError := None |}.

(** The [useState] cells of [App], and the value of the file input that
    [fileInputRef] points to ([None] while the ref is not attached). *)
Record AppState : Type := {
  file : option File.t;
  audioUrl : option string;
  isPlaying : bool;
  transcription : TranscriptionState;
  isDragOver : bool;
  copySuccess : bool;
  showNgrokWarning : bool;
  showDebugInfo : bool;
  fileInput : option string
}.

(** The state of a freshly mounted component (the arguments of [useState]). *)
Definition initial : AppState := {|
  file := None;
  audioUrl := None;
  isPlaying := false;
  transcription := just Idle;
  isDragOver := false;
  copySuccess := false;
  showNgrokWarning := false;
  showDebugInfo := false;
  fileInput := Some EmptyString
|}.

Module Response.
(** A fetch [Response].  [body] is what reading the body to the end gives:
    its text, or the error the read rejects with.  Header names are lower
    case, as [Headers] stores them. *)
Record t : Type := make {
  status : N;
  statusText : string;
  headers : list (string * string);
  url : string;
  body : JsError.t + string
}.

(** [response.ok]: the status is in the range 200-299. *)
Definition ok (r : t) : bool := (200 <=? status r)%N && (status r <=? 299)%N.

Fixpoint find (hs : list (string * string)) (name : string) : option string :=
  match hs with
  | [] => None
  | (k, v) :: rest => if String.eqb k name then Some v else find rest name
  end.

(** [response.headers.get(name)]. *)
Definition headers_get (r : t) (name : string) : option string := find (headers r) name.
End Response.

(** How the promise returned by [fetch] settles. *)
Inductive FetchOutcome : Type :=
| Resolved (response : Response.t)
| Rejected (reason : Thrown).

(** ** Calls a handler makes *)

Inductive Call : Type :=
| SetFile (f : option File.t)
| SetAudioUrl (u : option string)
| SetIsPlaying (b : bool)
| SetTranscription (t : TranscriptionState)
| SetShowNgrokWarning (b : bool)
| SetShowDebugInfo (b : bool)
| ClearFileInput                      (* fileInputRef.current.value = '' *)
| SetTimeout (ms : N)                 (* setTimeout(() => controller.abort(), ms) *)
| ClearTimeout                        (* clearTimeout(timeoutId) *)
| Fetch (path : string) (f : File.t)  (* fetch(`${API_URL}${path}`, { method: 'POST', ... }) *)
| ReadJson                            (* response.json() *)
| ReadText.                           (* response.text() *)

(** The effect of one call on the component state.  Browser calls leave the
    state cells alone. *)
Definition apply (s : AppState) (c : Call) : AppState :=
  match c with
  | SetFile f =>
      {| file := f; audioUrl := audioUrl s; isPlaying := isPlaying s;
         transcription := transcription s; isDragOver := isDragOver s;
         copySuccess := copySuccess s; showNgrokWarning := showNgrokWarning s;
         showDebugInfo := showDebugInfo s; fileInput := fileInput s |}
  | SetAudioUrl u =>
      {| file := file s; audioUrl := u; isPlaying := isPlaying s;
         transcription := transcription s; isDragOver := isDragOver s;
         copySuccess := copySuccess s; showNgrokWarning := showNgrokWarning s;
         showDebugInfo := showDebugInfo s; fileInput := fileInput s |}
  | SetIsPlaying b =>
      {| file := file s; audioUrl := audioUrl s; isPlaying := b;
         transcription := transcription s; isDragOver := isDragOver s;
         copySuccess := copySuccess s; showNgrokWarning := showNgrokWarning s;
         showDebugInfo := showDebugInfo s; fileInput := fileInput s |}
  | SetTranscription t =>
      {| file := file s; audioUrl := audioUrl s; isPlaying := isPlaying s;
         transcription := t; isDragOver := isDragOver s;
         copySuccess := copySuccess s; showNgrokWarning := showNgrokWarning s;
         showDebugInfo := showDebugInfo s; fileInput := fileInput s |}
  | SetShowNgrokWarning b =>
      {| file := file s; audioUrl := audioUrl s; isPlaying := isPlaying s;
         transcription := transcription s; isDragOver := isDragOver s;
         copySuccess := copySuccess s; showNgrokWarning := b;
         showDebugInfo := showDebugInfo s; fileInput := fileInput s |}
  | SetShowDebugInfo b =>
      {| file := file s; audioUrl := audioUrl s; isPlaying := isPlaying s;
         transcription := transcription s; isDragOver := isDragOver s;
         copySuccess := copySuccess s; showNgrokWarning := showNgrokWarning s;
         showDebugInfo := b; fileInput := fileInput s |}
  | ClearFileInput =>
      {| file := file s; audioUrl := audioUrl s; isPlaying := isPlaying s;
         transcription := transcription s; isDragOver := isDragOver s;
         copySuccess := copySuccess s; showNgrokWarning := showNgrokWarning s;
         showDebugInfo := showDebugInfo s;
         fileInput := match fileInput s with Some _ => Some EmptyString | None => None end |}
  | SetTimeout _ | ClearTimeout | Fetch _ _ | ReadJson | ReadText => s
  end.

(** ** Computations: a log of calls, ended normally or by a throw *)

Inductive Completion (A : Type) : Type :=
| Normal (a : A)
| Throw (e : Thrown).
Arguments Normal {A} a.
Arguments Throw {A} e.

Definition M (A : Type) : Type := (list Call * Completion A)%type.

Definition ret {A} (a : A) : M A := ([], Normal a).
Definition throw {A} (e : Thrown) : M A := ([], Throw e).
Definition call (c : Call) : M unit := ([c], Normal tt).

Definition bind {A B} (m : M A) (k : A -> M B) : M B :=
  match m with
  | (l, Normal a) => let (l', r) := k a in ((l ++ l')%list, r)
  | (l, Throw e) => (l, Throw e)
  end.

(** [try { m } catch (e) { handler e }]. *)
Definition try_catch {A} (m : M A) (handler : Thrown -> M A) : M A :=
  match m with
  | (l, Normal a) => (l, Normal a)
  | (l, Throw e) => let (l', r) := handler e in ((l ++ l')%list, r)
  end.

Declare Scope js_scope.
Delimit Scope js_scope with js.
Notation "x <- m ;; k" := (bind m (fun x => k))
  (at level 61, m at next level, right associativity) : js_scope.
Notation "m ;; k" := (bind m (fun _ => k))
  (at level 61, right associativity) : js_scope.
Notation "'try' m 'catch' h" := (try_catch m h)
  (at level 60, m at level 200, h at level 9) : js_scope.
#[local] Open Scope js_scope.

Definition calls {A} (m : M A) : list Call := fst m.
Definition completion {A} (m : M A) : Completion A := snd m.

(** The component state once every call of the computation has been applied. *)
Definition exec {A} (s : AppState) (m : M A) : AppState := fold_left apply (calls m) s.

(** ** What the browser provides *)

Class Platform : Type := {
  (** [URL.createObjectURL(file)] *)
  createObjectURL : File.t -> string;
  (** [JSON.parse(text)]: the value, or the [SyntaxError] thrown. *)
  JSON_parse : string -> JsError.t + JSValue;
  (** [JSON.stringify(value, null, 2)] *)
  JSON_stringify : JSValue -> string;
  (** The [stack] an error created at this point gets. *)
  stack_trace : string;
  (** The message of the [TypeError] thrown when property [key] of [null]
      is read. *)
  null_read_message : string -> string;
  (** [new Date().toISOString()] *)
  now : string
}.

Definition API_URL : string := "https://certain-monarch-vertically.ngrok-free.app".

(** [25 * 1024 * 1024] *)
Definition MAX_SIZE : N := 25 * 1024 * 1024.

Definition TIMEOUT_MS : N := 120000.

(** ** The handlers of [App] *)

Section Handlers.
Context `{Platform}.

Definition setFile f := call (SetFile f).
Definition setAudioUrl u := call (SetAudioUrl u).
Definition setIsPlaying b := call (SetIsPlaying b).
Definition setTranscription t := call (SetTranscription t).
Definition setShowNgrokWarning b := call (SetShowNgrokWarning b).
Definition setShowDebugInfo b := call (SetShowDebugInfo b).

(** [new Error(msg)] *)
Definition new_Error (msg : string) : Thrown :=
  ThrownError (JsError.make "Error" msg stack_trace JUndefined).

(** [value.key], for a key that no built-in prototype defines (the program
    reads [transcript] and [text] only): reading from [null] or [undefined]
    throws a [TypeError], an object gives its own property, every other
    value gives [undefined]. *)
Definition get (value : JSValue) (key : string) : M JSValue :=
  match value with
  | JUndefined | JNull =>
      throw (ThrownError (JsError.make "TypeError" (null_read_message key) stack_trace JUndefined))
  | JObject fields =>
      match lookup fields key with
      | Some v => ret v
      | None => ret JUndefined
      end
  | JBool _ | JNumber _ | JString _ | JArray _ => ret JUndefined
  end.

(** [JSON.parse(text)] as a computation. *)
Definition parse (text : string) : M JSValue :=
  match JSON_parse text with
  | inr v => ret v
  | inl e => throw (ThrownError e)
  end.

(** [await response.text()] *)
Definition text (response : Response.t) : M string :=
  call ReadText ;;
  match Response.body response with
  | inr s => ret s
  | inl e => throw (ThrownError e)
  end.

(** [await response.json()]: the body text, parsed. *)
Definition json (response : Response.t) : M JSValue :=
  call ReadJson ;;
  match Response.body response with
  | inr s => parse s
  | inl e => throw (ThrownError e)
  end.

(** [await fetch(`${API_URL}/transcribe`, ...)], given how it settles. *)
Definition fetch (path : string) (f : File.t) (settled : FetchOutcome) : M Response.t :=
  call (Fetch path f) ;;
  match settled with
  | Resolved response => ret response
  | Rejected reason => throw reason
  end.

(** Lines 27-42. *)
Definition handleFileSelect (selectedFile : File.t) : M unit :=
  if negb (startsWith (File.type selectedFile) "audio/") then
    setTranscription (with_error "Please select a valid audio file" None)
  else if (MAX_SIZE <? File.size selectedFile)%N then
    setTranscription (with_error "File size must be less than 25MB" None)
  else
    setFile (Some selectedFile) ;;
    setAudioUrl (Some (createObjectURL selectedFile)) ;;
    setTranscription (just Idle) ;;
    setIsPlaying false.

(** Lines 301-311. *)
Definition resetApp : M unit :=
  setFile None ;;
  setAudioUrl None ;;
  setIsPlaying false ;;
  setTranscription (just Idle) ;;
  setShowNgrokWarning false ;;
  setShowDebugInfo false ;;
  call ClearFileInput.

(** Line 163: does the text look like the ngrok warning page? *)
Definition looksLikeNgrokPage (errorText : string) : bool :=
  includes errorText "ngrok.com" || includes errorText "Visit Site" ||
  includes errorText "ngrok-skip-browser-warning".

(** Line 149: [contentType?.includes('application/json')], with
    [contentType = response.headers.get('content-type')]. *)
Definition declaresJson (response : Response.t) : bool :=
  match Response.headers_get response "content-type" with
  | Some contentType => includes contentType "application/json"
  | None => false
  end.

(** Lines 142-160: the text of an error response. *)
Definition readErrorText (response : Response.t) : M string :=
  try (
    if declaresJson response then
      errorData <- json response ;;
      ret (JSON_stringify errorData)
    else
      text response
  ) catch (fun _ => ret "Unable to parse error response").

(** Lines 141-181: the branch [if (!response.ok)]; it always throws. *)
Definition rejectResponse (response : Response.t) : M unit :=
  errorText <- readErrorText response ;;
  if looksLikeNgrokPage errorText then
    setShowNgrokWarning true ;;
    throw (new_Error "Please visit the API URL first to bypass the ngrok warning page")
  else
    throw (new_Error ("Server error (" ++ decimal (Response.status response) ++ "): " ++ errorText)).

(** Lines 183-209: a response with [response.ok]. *)
Definition acceptResponse (response : Response.t) : M unit :=
  setTranscription (with_progress Processing 50) ;;
  result <- (try (
               responseText <- text response ;;
               parse responseText
             ) catch (fun _ => throw (new_Error "Invalid response format from server"))) ;;
  (* result.transcript || result.text *)
  first <- get result "transcript" ;;
  chosen <- (if truthy first then ret first else get result "text") ;;
  if truthy chosen then
    setTranscription (with_transcript chosen 100)
  else
    throw (new_Error "No transcript received from server").

(** Lines 210-260: the [catch] block of [transcribeAudio]. *)
Definition classify (error : Thrown) : M unit :=
  match error with
  | ThrownError e =>
      let fullError :=
        ErrorDetails (JsError.name e) (JsError.message e) (JsError.stack e) (JsError.cause e) now in
      errorMessage <-
        (if String.eqb (JsError.name e) "AbortError" then
           ret "Request timed out. Please try again with a shorter audio file."
         else if includes (JsError.message e) "Failed to fetch" ||
                 includes (JsError.message e) "NetworkError" ||
                 includes (JsError.message e) "TypeError" then
           setShowNgrokWarning true ;;
           ret "Unable to connect to the transcription service. Please visit the API URL first to bypass the ngrok warning page."
         else if includes (JsError.message e) "ngrok warning" then
           setShowNgrokWarning true ;;
           ret (JsError.message e)
         else
           ret (JsError.message e)) ;;
      setTranscription (with_error errorMessage (Some fullError))
  | ThrownValue v =>
      let fullError := ValueDetails (typeof v) v now in
      setShowNgrokWarning true ;;
      setTranscription (with_error "Failed to transcribe audio" (Some fullError))
  end.

(** Lines 97-209: the [try] block, from the request to the end. *)
Definition attempt (f : File.t) (settled : FetchOutcome) : M unit :=
  call (SetTimeout TIMEOUT_MS) ;;
  response <- fetch "/transcribe" f settled ;;
  call ClearTimeout ;;
  if negb (Response.ok response) then rejectResponse response
  else acceptResponse response.

(** Lines 91-261.  [s] is the state the handler closed over, [settled] how
    the request it sends settles. *)
Definition transcribeAudio (s : AppState) (settled : FetchOutcome) : M unit :=
  match file s with
  | None => ret tt
  | Some f =>
      setTranscription (with_progress Uploading 0) ;;
      try attempt f settled catch classify
  end.

(** Line 439: the [disabled] attribute of the Transcribe button. *)
Definition transcribeDisabled (s : AppState) : bool :=
  match status (transcription s) with
  | Uploading | Processing => true
  | Idle | Success | Error => false
  end.

End Handlers.

(** ** The request and its 120-second timer *)

(** What the network would do with the request if nothing aborted it. *)
Inductive Network : Type :=
| SettlesAfter (ms : N) (outcome : FetchOutcome)
| NeverSettles.

(** The budget of the abort timer that is in force when the request of a
    log is sent: that of the last [setTimeout] before the first [fetch]
    which no [clearTimeout] has cleared.  The result is [None] for a log
    that sends no request, [Some None] for a request sent with no timer
    armed. *)
Fixpoint timerAtFetch (armed : option N) (l : list Call) : option (option N) :=
  match l with
  | [] => None
  | SetTimeout ms :: rest => timerAtFetch (Some ms) rest
  | ClearTimeout :: rest => timerAtFetch None rest
  | Fetch _ _ :: _ => Some armed
  | _ :: rest => timerAtFetch armed rest
  end.

(** [races budget net o]: the promise of a [fetch] sent with the given timer
    in force settles as [o].  A request that settles before the timer
    fires, or that no timer watches, keeps its own outcome; when the timer
    fires first, [controller.abort()] (line 107) rejects the promise with a
    [DOMException] named [AbortError].  When both are due at the same
    instant either may come first.  A request that never settles and that
    no timer watches leaves the promise pending for ever. *)
Inductive races : option N -> Network -> FetchOutcome -> Prop :=
| race_unwatched ms outcome :
    races None (SettlesAfter ms outcome) outcome
| race_in_time budget ms outcome :
    (ms <= budget)%N ->
    races (Some budget) (SettlesAfter ms outcome) outcome
| race_aborted budget ms outcome e :
    (budget <= ms)%N ->
    JsError.name e = "AbortError" ->
    races (Some budget) (SettlesAfter ms outcome) (Rejected (ThrownError e))
| race_aborted_pending budget e :
    JsError.name e = "AbortError" ->
    races (Some budget) NeverSettles (Rejected (ThrownError e)).

Section Timer.
Context `{Platform}.

(** [attemptSettles s net o]: the request that [transcribeAudio] sends from
    the state [s] meets the network [net], and its promise settles as [o]
    under the timer that the handler itself has armed by then. *)
Definition attemptSettles (s : AppState) (net : Network) (settled : FetchOutcome) : Prop :=
  match timerAtFetch None (calls (transcribeAudio s settled)) with
  | Some budget => races budget net settled
  | None => False
  end.

End Timer.

(** ** The event loop: attempts suspended at an [await] *)

(** The calls whose result the handler awaits. *)
Definition awaited (c : Call) : bool :=
  match c with
  | Fetch _ _ | ReadJson | ReadText => true
  | _ => false
  end.

(** The log of an [async] handler cut after each awaited call: the first
    segment runs when the handler is called, each later one when the awaited
    promise has settled. *)
Fixpoint segments (l : list Call) : list (list Call) :=
  match l with
  | [] => [[]]
  | c :: rest =>
      if awaited c then [c] :: segments rest
      else match segments rest with
           | seg :: more => (c :: seg) :: more
           | [] => [[c]]
           end
  end.

Definition run (s : AppState) (seg : list Call) : AppState := fold_left apply seg s.

(** The component together with the attempts that are suspended: for each,
    the segments it has still to run. *)
Record World : Type := {
  app : AppState;
  pending : list (list (list Call))
}.

(** The number of transcription requests in flight. *)
Definition inFlight (w : World) : nat := length (pending w).

Definition suspend (rest : list (list Call)) : list (list (list Call)) :=
  match rest with
  | [] => []
  | _ :: _ => [rest]
  end.

Fixpoint resumeAt (i : nat) (ps : list (list (list Call))) (s : AppState)
  : AppState * list (list (list Call)) :=
  match ps with
  | [] => (s, [])
  | p :: others =>
      match i with
      | O =>
          match p with
          | [] => (s, others)
          | seg :: rest => (run s seg, suspend rest ++ others)%list
          end
      | S j => let (s', others') := resumeAt j others s in (s', p :: others')
      end
  end.

Section EventLoop.
Context `{Platform}.

(** [transcribeAudio()] is called; the request it sends will settle as
    [settled].  The handler runs to its first [await]. *)
Definition submit (settled : FetchOutcome) (w : World) : World :=
  match segments (calls (transcribeAudio (app w) settled)) with
  | [] => w
  | seg :: rest =>
      {| app := run (app w) seg; pending := (pending w ++ suspend rest)%list |}
  end.

(** A click on the Transcribe button (lines 437-452), which is rendered
    when [audioUrl] is set and takes clicks unless disabled. *)
Definition click (settled : FetchOutcome) (w : World) : World :=
  match audioUrl (app w) with
  | None => w
  | Some _ => if transcribeDisabled (app w) then w else submit settled w
  end.

(** The promise that the [i]-th suspended attempt awaits has settled. *)
Definition resume (i : nat) (w : World) : World :=
  let (s, ps) := resumeAt i (pending w) (app w) in {| app := s; pending := ps |}.

Inductive Action : Type :=
| Click (settled : FetchOutcome)
| Resume (i : nat).

Definition act (w : World) (a : Action) : World :=
  match a with
  | Click settled => click settled w
  | Resume i => resume i w
  end.

End EventLoop.

(** ** A platform to run the handlers on

    [JSON.parse] is tabulated on the texts that the examples use and throws
    on every other text (among them the HTML page of the examples, on which
    the browser's [JSON.parse] throws as well); no example reaches
    [JSON.stringify], which is tabulated on two values.  The [TypeError]
    message is V8's. *)

Definition quote : string := String (ascii_of_nat 34) EmptyString.

Definition field (key value : string) : string :=
  "{" ++ quote ++ key ++ quote ++ ": " ++ quote ++ value ++ quote ++ "}".

Definition syntaxError : JsError.t :=
  JsError.make "SyntaxError" "Unexpected token" "SyntaxError: Unexpected token" JUndefined.

Definition parseTable : list (string * JSValue) :=
  [ (field "transcript" "hello world", JObject [("transcript", JString "hello world")]);
    (field "text" "alt text", JObject [("text", JString "alt text")]);
    ("{}", JObject []);
    ("null", JNull) ].

Definition tabulated : Platform := {|
  createObjectURL := fun f => "blob:" ++ File.name f;
  JSON_parse := fun s =>
    match lookup parseTable s with
    | Some v => inr v
    | None => inl syntaxError
    end;
  JSON_stringify := fun v =>
    match v with
    | JNull => "null"
    | JObject [] => "{}"
    | _ => "[value]"
    end;
  stack_trace := "Error";
  null_read_message := fun key => "Cannot read properties of null (reading '" ++ key ++ "')";
  now := "2024-01-01T00:00:00.000Z"
|}.

Definition song (size : N) : File.t := File.make "song.mp3" size "audio/mpeg".

Definition selected (f : File.t) : AppState := {|
  file := Some f;
  audioUrl := Some ("blob:" ++ File.name f);
  isPlaying := false;
  transcription := just Idle;
  isDragOver := false;
  copySuccess := false;
  showNgrokWarning := false;
  showDebugInfo := false;
  fileInput := Some "song.mp3"
|}.

Definition respond (status : N) (contentType body : string) : Response.t :=
  Response.make status EmptyString [("content-type", contentType)]
    (API_URL ++ "/transcribe") (inr body).

(** ** Vocabulary of the statements *)

(** The messages of the classification. *)
Definition invalidType : string := "Please select a valid audio file".
Definition tooLarge : string := "File size must be less than 25MB".
Definition timedOut : string :=
  "Request timed out. Please try again with a shorter audio file.".
Definition unreachable : string :=
  "Unable to connect to the transcription service. Please visit the API URL first to bypass the ngrok warning page.".
Definition visitFirst : string :=
  "Please visit the API URL first to bypass the ngrok warning page".
Definition noTranscript : string := "No transcript received from server".

(** The state after [setTranscription] with a validation error and nothing
    else. *)
Definition rejected (s : AppState) (reason : string) : AppState := {|
  file := file s;
  audioUrl := audioUrl s;
  isPlaying := isPlaying s;
  transcription := with_error reason None;
  isDragOver := isDragOver s;
  copySuccess := copySuccess s;
  showNgrokWarning := showNgrokWarning s;
  showDebugInfo := showDebugInfo s;
  fileInput := fileInput s
|}.

(** One of the three markers of line 163 occurs in the text. *)
Definition hasMarker (text : string) : Prop :=
  includes text "ngrok.com" = true \/
  includes text "Visit Site" = true \/
  includes text "ngrok-skip-browser-warning" = true.

(** The calls that start decoding the body of a response. *)
Definition decodes (c : Call) : bool :=
  match c with
  | ReadJson | ReadText => true
  | _ => false
  end.

(** The component state at the moment the first decoding call of the log is
    made, if there is one. *)
Fixpoint atDecode (s : AppState) (l : list Call) : option AppState :=
  match l with
  | [] => None
  | c :: rest => if decodes c then Some s else atDecode (apply s c) rest
  end.

Definition Status_eqb (a b : Status) : bool :=
  match a, b with
  | Idle, Idle | Uploading, Uploading | Processing, Processing
  | Success, Success | Error, Error => true
  | _, _ => false
  end.

(** The call sets the Request State to the given status. *)
Definition entersStatus (st : Status) (c : Call) : bool :=
  match c with
  | SetTranscription t => Status_eqb (status t) st
  | _ => false
  end.

(** [busy s segs]: with the segments [segs] of an attempt still to run from
    the state [s], the Transcribe button is disabled now and stays so until
    the last segment runs. *)
Fixpoint busy (s : AppState) (segs : list (list Call)) : Prop :=
  match status (transcription s) with
  | Uploading | Processing => True
  | Idle | Success | Error => False
  end /\
  match segs with
  | [] => True
  | seg :: rest =>
      match rest with
      | [] => True
      | _ :: _ => busy (run s seg) rest
      end
  end.

(** The requests in flight are none, or one whose attempt keeps the button
    disabled. *)
Definition oneAtMost (w : World) : Prop :=
  pending w = [] \/
  exists seg rest, pending w = [seg :: rest] /\ busy (app w) (seg :: rest).

(** Inputs of the examples. *)
Definition notes : File.t := File.make "notes.txt" 12 "text/plain".
Definition ready : AppState := selected (song 1000).
Definition interstitial : string := "<html>ngrok.com</html>".
Definition abortError : JsError.t :=
  JsError.make "AbortError" "signal is aborted without reason" "AbortError" JUndefined.
Definition helloResponse : Response.t :=
  respond 200 "application/json" (field "transcript" "hello world").
Definition altResponse : Response.t :=
  respond 200 "application/json" (field "text" "alt text").
Definition nullResponse : Response.t := respond 200 "application/json" "null".
Definition blockedPage : Response.t := respond 403 "text/html" interstitial.
Definition blockedAsJson : Response.t := respond 403 "application/json" interstitial.
Definition serverError : Response.t := respond 500 "text/plain" "boom".
Definition lateNetwork : Network := SettlesAfter 120001 (Resolved helloResponse).
Definition fetchFailed : JsError.t :=
  JsError.make "TypeError" "Failed to fetch" "TypeError: Failed to fetch" JUndefined.
Definition traceback : Response.t :=
  respond 500 "text/plain" "TypeError: unsupported operand".
Definition pageAsSuccess : Response.t := respond 200 "text/html" interstitial.
Definition quiet : World := {| app := ready; pending := [] |}.
Definition session : list Action :=
  [Click (Resolved helloResponse); Click (Resolved altResponse); Resume 0;
   Click (Resolved serverError); Resume 0; Resume 0; Click (Rejected (ThrownError abortError))].

(** ** The rest of the component *)

(** *** The log of an attempt *)

(** What [transcribeAudio] does before its first [await]. *)
Definition sent (f : File.t) : list Call :=
  [SetTranscription (with_progress Uploading 0); SetTimeout TIMEOUT_MS; Fetch "/transcribe" f].

(** The requests of a log. *)
Fixpoint requests (l : list Call) : list (string * File.t) :=
  match l with
  | [] => []
  | Fetch path f :: rest => (path, f) :: requests rest
  | _ :: rest => requests rest
  end.

Definition armsTimer (c : Call) : bool :=
  match c with
  | SetTimeout _ => true
  | _ => false
  end.

Definition clearsTimer (c : Call) : bool :=
  match c with
  | ClearTimeout => true
  | _ => false
  end.

(** The four ways an attempt can go, by the calls it makes after [sent]:
    the request fails; a response that is not [ok] is read and refused; the
    body of an [ok] response is read and is of no use; it is read and holds
    a transcript. *)
Inductive attemptLog (f : File.t) : list Call -> Prop :=
| log_failed raise msg d :
    Forall (fun c => c = SetShowNgrokWarning true) raise ->
    attemptLog f (sent f ++ raise ++ [SetTranscription (with_error msg (Some d))])
| log_refused read raise msg d :
    decodes read = true ->
    Forall (fun c => c = SetShowNgrokWarning true) raise ->
    attemptLog f (sent f ++ ClearTimeout :: read ::
                  raise ++ [SetTranscription (with_error msg (Some d))])
| log_unusable raise msg d :
    Forall (fun c => c = SetShowNgrokWarning true) raise ->
    attemptLog f (sent f ++ ClearTimeout ::
                  SetTranscription (with_progress Processing 50) :: ReadText ::
                  raise ++ [SetTranscription (with_error msg (Some d))])
| log_succeeded chosen :
    truthy chosen = true ->
    attemptLog f (sent f ++ [ClearTimeout;
                  SetTranscription (with_progress Processing 50); ReadText;
                  SetTranscription (with_transcript chosen 100)]).

(** [result.transcript || result.text] for an object with the given
    fields. *)
Definition transcriptOrText (fields : list (string * JSValue)) : JSValue :=
  let first := match lookup fields "transcript" with Some v => v | None => JUndefined end in
  if truthy first then first
  else match lookup fields "text" with Some v => v | None => JUndefined end.

(** The two tests of [handleFileSelect] (lines 28 and 33) both pass. *)
Definition acceptable (f : File.t) : bool :=
  startsWith (File.type f) "audio/" && (File.size f <=? MAX_SIZE)%N.

Definition selectsFile (c : Call) : bool :=
  match c with
  | SetFile (Some _) => true
  | _ => false
  end.

(** Everything in [now] that was in [before], but for the Request State and
    the gateway notice, which may have been raised. *)
Definition touchesOnlyRequest (before now : AppState) : Prop :=
  file now = file before /\
  audioUrl now = audioUrl before /\
  isPlaying now = isPlaying before /\
  isDragOver now = isDragOver before /\
  copySuccess now = copySuccess before /\
  showDebugInfo now = showDebugInfo before /\
  fileInput now = fileInput before /\
  implb (showNgrokWarning before) (showNgrokWarning now) = true.

(** A Request State as the handlers build it: the optional fields go with
    the status. *)
Definition wellFormed (t : TranscriptionState) : Prop :=
  match status t with
  | Idle => t = just Idle
  | Uploading => t = with_progress Uploading 0
  | Processing => t = with_progress Processing 50
  | Success => exists v, truthy v = true /\ t = with_transcript v 100
  | Error => exists msg, t = with_error msg (fullError t)
  end.

(** A call that an attempt may make: it selects no file, and a Request
    State it sets is well formed. *)
Definition attemptCall (c : Call) : Prop :=
  match c with
  | SetTranscription t => wellFormed t
  | SetShowNgrokWarning b => b = true
  | SetTimeout _ | ClearTimeout | Fetch _ _ | ReadJson | ReadText => True
  | SetFile _ | SetAudioUrl _ | SetIsPlaying _ | SetShowDebugInfo _ | ClearFileInput => False
  end.

(** *** What is rendered (lines 331-592) *)

Definition isTruthy (v : option JSValue) : bool :=
  match v with
  | Some x => truthy x
  | None => false
  end.

(** Line 331. *)
Definition showsNotice (s : AppState) : bool := showNgrokWarning s.

(** Line 424: the player, with the Transcribe button and the audio element. *)
Definition showsPlayer (s : AppState) : bool :=
  match audioUrl s with
  | Some _ => true
  | None => false
  end.

(** Line 464. *)
Definition showsProgress (s : AppState) : bool :=
  match status (transcription s) with
  | Uploading | Processing => true
  | _ => false
  end.

(** Line 482. *)
Definition showsError (s : AppState) : bool :=
  Status_eqb (status (transcription s)) Error.

(** Lines 482 and 491: the Debug Info button. *)
Definition showsDebugToggle (s : AppState) : bool :=
  showsError s &&
  match fullError (transcription s) with
  | Some _ => true
  | None => false
  end.

(** Line 537: the test in front of the transcript panel. *)
Definition transcriptGuard (s : AppState) : bool :=
  Status_eqb (status (transcription s)) Success && isTruthy (transcript (transcription s)).

(** Can React render the value as a child?  A string or a number is shown,
    a boolean, [null] or [undefined] shows nothing, an array is rendered
    item by item; a plain object is not a valid child, and rendering one
    throws. *)
Fixpoint renderable (v : JSValue) : bool :=
  match v with
  | JObject _ => false
  | JArray items => forallb renderable items
  | JUndefined | JNull | JBool _ | JNumber _ | JString _ => true
  end.

(** Line 575: [{transcription.transcript}] is rendered when the test of line
    537 passes; when the value cannot be rendered the render throws, and
    React, having no error boundary here, unmounts the component. *)
Definition renderThrows (s : AppState) : bool :=
  transcriptGuard s &&
  match transcript (transcription s) with
  | Some t => negb (renderable t)
  | None => false
  end.

(** Lines 537-580: the transcript panel is on the page. *)
Definition showsTranscript (s : AppState) : bool :=
  transcriptGuard s && negb (renderThrows s).

(** Line 583. *)
Definition showsReset (s : AppState) : bool :=
  match file s with
  | Some _ => true
  | None => negb (Status_eqb (status (transcription s)) Idle)
  end.

(** What is on the page. *)
Record View : Type := {
  notice : bool;
  player : bool;
  progressBar : bool;
  errorPanel : bool;
  debugToggle : bool;
  transcriptPanel : bool;
  resetButton : bool
}.

(** Lines 313-596: the page for a state, or [None] when rendering it throws
    and nothing is left on the page. *)
Definition render (s : AppState) : option View :=
  if renderThrows s then None
  else Some {| notice := showsNotice s;
               player := showsPlayer s;
               progressBar := showsProgress s;
               errorPanel := showsError s;
               debugToggle := showsDebugToggle s;
               transcriptPanel := showsTranscript s;
               resetButton := showsReset s |}.

(** *** Drag and drop, playback *)

(** Calls of the handlers outside the lifecycle. *)
Inductive UiCall : Type :=
| Core (c : Call)
| SetIsDragOver (b : bool)
| PreventDefault                      (* e.preventDefault() *)
| AudioPlay                           (* audioRef.current.play() *)
| AudioPause.                         (* audioRef.current.pause() *)

Definition applyUi (s : AppState) (c : UiCall) : AppState :=
  match c with
  | Core c => apply s c
  | SetIsDragOver b =>
      {| file := file s; audioUrl := audioUrl s; isPlaying := isPlaying s;
         transcription := transcription s; isDragOver := b;
         copySuccess := copySuccess s; showNgrokWarning := showNgrokWarning s;
         showDebugInfo := showDebugInfo s; fileInput := fileInput s |}
  | PreventDefault | AudioPlay | AudioPause => s
  end.

Definition runUi (s : AppState) (l : list UiCall) : AppState := fold_left applyUi l s.

Section Surface.
Context `{Platform}.

(** Lines 44-47. *)
Definition handleDragOver : list UiCall := [PreventDefault; SetIsDragOver true].

(** Lines 49-52. *)
Definition handleDragLeave : list UiCall := [PreventDefault; SetIsDragOver false].

(** Lines 54-61; [files] is [e.dataTransfer.files]. *)
Definition handleDrop (files : list File.t) : list UiCall :=
  PreventDefault :: SetIsDragOver false ::
  match files with
  | droppedFile :: _ => map Core (calls (handleFileSelect droppedFile))
  | [] => []
  end.

(** Line 388: [e.target.files?.[0] && handleFileSelect(e.target.files[0])]. *)
Definition onChange (files : list File.t) : list UiCall :=
  match files with
  | chosen :: _ => map Core (calls (handleFileSelect chosen))
  | [] => []
  end.

(** Lines 63-72.  [audioRef.current] is the audio element of line 454,
    which is rendered with the player. *)
Definition togglePlayPause (s : AppState) : list UiCall :=
  if showsPlayer s then
    [if isPlaying s then AudioPause else AudioPlay;
     Core (SetIsPlaying (negb (isPlaying s)))]
  else [].

(** Line 457. *)
Definition onEnded : list UiCall := [Core (SetIsPlaying false)].

(** Line 494. *)
Definition toggleDebugInfo (s : AppState) : list UiCall :=
  [Core (SetShowDebugInfo (negb (showDebugInfo s)))].

(** Line 351. *)
Definition dismissNotice : list UiCall := [Core (SetShowNgrokWarning false)].

(** *** Everything that can happen to the component *)

Inductive Event : Type :=
| Choose (files : list File.t)          (* the file input changes *)
| Drop (files : list File.t)
| DragOver
| DragLeave
| PressPlay
| Ended                                 (* the audio element has played to its end *)
| PressTranscribe (settled : FetchOutcome)
| Settled (i : nat)                     (* what the i-th suspended attempt awaits has settled *)
| PressReset
| PressDebug
| PressVisited.

Definition onApp (w : World) (l : list UiCall) : World :=
  {| app := runUi (app w) l; pending := pending w |}.

(** An event reaches its handler when the element that carries the handler
    is rendered. *)
Definition handle (w : World) (e : Event) : World :=
  match e with
  | Choose files => onApp w (onChange files)
  | Drop files => onApp w (handleDrop files)
  | DragOver => onApp w handleDragOver
  | DragLeave => onApp w handleDragLeave
  | PressPlay => onApp w (togglePlayPause (app w))
  | Ended => if showsPlayer (app w) then onApp w onEnded else w
  | PressTranscribe settled => click settled w
  | Settled i => resume i w
  | PressReset => if showsReset (app w) then onApp w (map Core (calls resetApp)) else w
  | PressDebug => if showsDebugToggle (app w) then onApp w (toggleDebugInfo (app w)) else w
  | PressVisited => if showsNotice (app w) then onApp w dismissNotice else w
  end.

End Surface.

(** The component right after mounting, with nothing in flight. *)
Definition mounted : World := {| app := initial; pending := [] |}.

(** What holds of the component whatever happens to it. *)
Definition consistent (w : World) : Prop :=
  (file (app w) = None <-> audioUrl (app w) = None) /\
  (isPlaying (app w) = true -> audioUrl (app w) <> None) /\
  wellFormed (transcription (app w)) /\
  Forall (Forall (Forall attemptCall)) (pending w).

(** *** The name of the downloaded transcript (line 293) *)

(** The regular expressions that the pattern of line 293 needs: a sequence
    of items, each a character test taken once or, greedily, one or more
    times, or the end of the input. *)
Inductive Atom : Type :=
| Lit (c : ascii)
| NoneOf (cs : list ascii).

Inductive Item : Type :=
| One (a : Atom)
| Many (a : Atom)
| End_.

Definition accepts (a : Atom) (c : ascii) : bool :=
  match a with
  | Lit d => Ascii.eqb c d
  | NoneOf cs => negb (existsb (Ascii.eqb c) cs)
  end.

(** [matchItems items s]: the pattern matches a prefix of [s]; the result is
    what follows the match.  [Many] takes as many characters as it can and
    gives them back one at a time while the rest does not match. *)
Fixpoint matchItems (items : list Item) : string -> option string :=
  match items with
  | [] => fun s => Some s
  | End_ :: rest =>
      fun s => match s with
               | EmptyString => matchItems rest s
               | String _ _ => None
               end
  | One a :: rest =>
      fun s => match s with
               | EmptyString => None
               | String c s' => if accepts a c then matchItems rest s' else None
               end
  | Many a :: rest =>
      fix many (s : string) : option string :=
        match s with
        | EmptyString => None
        | String c s' =>
            if accepts a c then
              match many s' with
              | Some after => Some after
              | None => matchItems rest s'
              end
            else None
        end
  end.

(** [s.replace(pattern, replacement)] for a pattern without the [g] flag:
    the leftmost match is replaced. *)
Fixpoint replaceFirst (pattern : list Item) (replacement s : string) : string :=
  match matchItems pattern s with
  | Some after => replacement ++ after
  | None =>
      match s with
      | EmptyString => EmptyString
      | String c s' => String c (replaceFirst pattern replacement s')
      end
  end.

(** [/\.[^/.]+$/] *)
Definition extensionPattern : list Item :=
  [One (Lit "."); Many (NoneOf ["/"; "."]%char); End_].

Definition stripExtension (name : string) : string :=
  replaceFirst extensionPattern EmptyString name.

(** [a || b] on strings. *)
Definition orElse (a b : string) : string :=
  match a with
  | EmptyString => b
  | String _ _ => a
  end.

(** [`transcript-${file?.name?.replace(/\.[^/.]+$/, '') || 'audio'}.txt`] *)
Definition downloadName (f : option File.t) : string :=
  "transcript-" ++
  orElse (match f with
          | Some selectedFile => stripExtension (File.name selectedFile)
          | None => EmptyString
          end) "audio" ++
  ".txt".

(** What [downloadTranscript] hands to the browser to save. *)
Record Download : Type := {
  filename : string;
  content : JSValue;
  mimeType : string
}.

(** Lines 287-299: nothing without a transcript; otherwise a blob of the
    transcript, of type [text/plain], saved through a link whose [download]
    attribute is the name above. *)
Definition downloadTranscript (s : AppState) : option Download :=
  match transcript (transcription s) with
  | Some t =>
      if truthy t then
        Some {| filename := downloadName (file s); content := t; mimeType := "text/plain" |}
      else None
  | None => None
  end.

(** Text without a dot and without a slash. *)
Fixpoint plain (s : string) : bool :=
  match s with
  | EmptyString => true
  | String c rest => negb (existsb (Ascii.eqb c) ["/"; "."]%char) && plain rest
  end.

(** * Properties *)

(** ** Strings *)

Lemma prefix_app (p s : string) : String.prefix p (p ++ s) = true.
Proof.
  induction p as [|c p IH]; simpl.
  - now destruct s.
  - destruct (ascii_dec c c) as [_|n]; [exact IH | now elim n].
Qed.

Lemma prefix_split (p s : string) :
  String.prefix p s = true -> exists rest, s = p ++ rest.
Proof.
  revert s; induction p as [|c p IH]; intros s Hp.
  - now exists s.
  - destruct s as [|d s]; simpl in Hp; [discriminate|].
    destruct (ascii_dec c d) as [->|_]; [|discriminate].
    destruct (IH _ Hp) as [rest ->]. now exists rest.
Qed.

(** [includes] is the substring test. *)
Lemma includes_spec (s needle : string) :
  includes s needle = true <-> exists before after, s = before ++ needle ++ after.
Proof.
  split.
  - induction s as [|c s IH]; cbn [includes]; intros Hi.
    + rewrite orb_false_r in Hi.
      destruct (prefix_split _ _ Hi) as [rest ->]. now exists EmptyString, rest.
    + apply orb_true_iff in Hi as [Hp|Hi].
      * destruct (prefix_split _ _ Hp) as [rest ->]. now exists EmptyString, rest.
      * destruct (IH Hi) as (b & a & ->). now exists (String c b), a.
  - intros (b & a & ->).
    induction b as [|c b IH].
    + change (EmptyString ++ needle ++ a) with (needle ++ a).
      destruct (needle ++ a) eqn:E; cbn [includes]; rewrite <- E;
        now rewrite prefix_app.
    + change (String c b ++ needle ++ a) with (String c (b ++ needle ++ a)).
      cbn [includes]. now rewrite IH, orb_true_r.
Qed.

(** ** Running a handler *)

Lemma calls_bind_call {A} (c : Call) (k : unit -> M A) :
  calls (bind (call c) k) = c :: calls (k tt).
Proof.
  unfold calls, call, bind. now destruct (k tt).
Qed.

(** ** Validation *)

Section Validation.
Context `{Platform}.

Lemma reject_invalid_type (f : File.t) :
  startsWith (File.type f) "audio/" = false ->
  calls (handleFileSelect f) = [SetTranscription (with_error invalidType None)].
Proof.
  intros Ht. unfold handleFileSelect. now rewrite Ht.
Qed.

Lemma reject_too_large (f : File.t) :
  startsWith (File.type f) "audio/" = true ->
  (MAX_SIZE < File.size f)%N ->
  calls (handleFileSelect f) = [SetTranscription (with_error tooLarge None)].
Proof.
  intros Ht Hs. unfold handleFileSelect. rewrite Ht; simpl negb; cbv iota.
  apply N.ltb_lt in Hs. now rewrite Hs.
Qed.

Lemma accept_file (f : File.t) :
  startsWith (File.type f) "audio/" = true ->
  (File.size f <= MAX_SIZE)%N ->
  calls (handleFileSelect f) =
    [SetFile (Some f); SetAudioUrl (Some (createObjectURL f));
     SetTranscription (just Idle); SetIsPlaying false].
Proof.
  intros Ht Hs. unfold handleFileSelect. rewrite Ht; simpl negb; cbv iota.
  apply N.ltb_ge in Hs. now rewrite Hs.
Qed.

(** C2, as the code has it: a candidate whose MIME type does not start
    with [audio/] is rejected with the invalid-type reason, which is stored
    in the Request State: its status becomes [error] (not idle), it
    carries the reason and no transcript, progress or diagnostic bundle,
    and the rest of the component state is untouched. *)
Theorem invalid_type_rejected (s : AppState) (f : File.t) :
  startsWith (File.type f) "audio/" = false ->
  exec s (handleFileSelect f) = rejected s invalidType /\
  status (transcription (exec s (handleFileSelect f))) = Error /\
  error (transcription (exec s (handleFileSelect f))) = Some "Please select a valid audio file".
Proof.
  intros Ht. unfold exec. rewrite (reject_invalid_type f Ht). now simpl.
Qed.

(** C7: a candidate with an audio MIME type and more than 25 * 1024 * 1024
    bytes is rejected with the too-large reason; one of exactly that many
    bytes passes the size check and becomes the selected file. *)
Theorem size_limit (s : AppState) (f : File.t) :
  startsWith (File.type f) "audio/" = true ->
  ((25 * 1024 * 1024 < File.size f)%N ->
     exec s (handleFileSelect f) = rejected s "File size must be less than 25MB") /\
  (File.size f = (25 * 1024 * 1024)%N ->
     file (exec s (handleFileSelect f)) = Some f /\
     transcription (exec s (handleFileSelect f)) = just Idle).
Proof.
  intros Ht; split; intros Hs; unfold exec.
  - rewrite (reject_too_large f Ht Hs). reflexivity.
  - rewrite (accept_file f Ht); [now simpl|].
    rewrite Hs. apply N.le_refl.
Qed.

(** C10: a candidate that fails validation, for its MIME type or for its
    size, makes one call, [setTranscription] with the validation error: the
    selected file and its audio source URL stay as they were, whatever they
    were, and so does every other cell. *)
Theorem rejection_keeps_selection (s : AppState) (f : File.t) :
  startsWith (File.type f) "audio/" = false \/ (MAX_SIZE < File.size f)%N ->
  file (exec s (handleFileSelect f)) = file s /\
  audioUrl (exec s (handleFileSelect f)) = audioUrl s /\
  (exists reason,
     (reason = invalidType \/ reason = tooLarge) /\
     calls (handleFileSelect f) = [SetTranscription (with_error reason None)] /\
     exec s (handleFileSelect f) = rejected s reason).
Proof.
  intros Hr.
  assert (exists reason, (reason = invalidType \/ reason = tooLarge) /\
            calls (handleFileSelect f) = [SetTranscription (with_error reason None)])
    as (reason & Hreason & Hcalls).
  { destruct (startsWith (File.type f) "audio/") eqn:Ht.
    - destruct Hr as [Hr|Hr]; [discriminate|].
      exists tooLarge. split; [now right | now apply reject_too_large].
    - exists invalidType. split; [now left | now apply reject_invalid_type]. }
  unfold exec. rewrite Hcalls. simpl.
  repeat split. exists reason. now repeat split.
Qed.

End Validation.

(** ** Reset *)

Section Reset.
Context `{Platform}.

(** C9: whatever the state, [resetApp] leaves no selected file and no audio
    source, an idle Request State without transcript, error message,
    progress or diagnostic bundle, no gateway notice and a hidden debug
    panel: the cells of the lifecycle are those of a freshly mounted
    component.  It is one synchronous handler (it awaits nothing).  The
    drag-hover and copied flags of the presentation are not touched, and
    the file input is emptied. *)
Theorem reset_restores_initial (s : AppState) :
  file (exec s resetApp) = None /\
  audioUrl (exec s resetApp) = None /\
  transcription (exec s resetApp) =
    {| status := Idle; transcript := None; error := None;
       progress := None; fullError := None |} /\
  showNgrokWarning (exec s resetApp) = false /\
  showDebugInfo (exec s resetApp) = false /\
  exec s resetApp =
    {| file := file initial;
       audioUrl := audioUrl initial;
       isPlaying := isPlaying initial;
       transcription := transcription initial;
       isDragOver := isDragOver s;
       copySuccess := copySuccess s;
       showNgrokWarning := showNgrokWarning initial;
       showDebugInfo := showDebugInfo initial;
       fileInput := option_map (fun _ => EmptyString) (fileInput s) |} /\
  segments (calls resetApp) = [calls resetApp].
Proof.
  repeat split; destruct s as [? ? ? ? ? ? ? ? [v|]]; reflexivity.
Qed.

End Reset.

(** ** Submission and classification *)

Section Lifecycle.
Context `{Platform}.

(** The log of a submission with a file selected. *)
Lemma transcribeAudio_calls (s : AppState) (f : File.t) (settled : FetchOutcome) :
  file s = Some f ->
  calls (transcribeAudio s settled) =
    SetTranscription (with_progress Uploading 0) ::
    calls (try attempt f settled catch classify).
Proof.
  intros Hf. unfold transcribeAudio. rewrite Hf.
  apply calls_bind_call.
Qed.

Lemma truthy_string (t : string) : t <> EmptyString -> truthy (JString t) = true.
Proof.
  intros Ht. simpl. destruct (String.eqb_spec t EmptyString); [contradiction | reflexivity].
Qed.

(** The end of [acceptResponse] once the body has parsed to an object. *)
Lemma accept_object (r : Response.t) (body : string) (fields : list (string * JSValue))
      (chosen : JSValue) :
  Response.body r = inr body ->
  JSON_parse body = inr (JObject fields) ->
  truthy chosen = true ->
  (let first := match lookup fields "transcript" with Some v => v | None => JUndefined end in
   chosen = if truthy first then first
            else match lookup fields "text" with Some v => v | None => JUndefined end) ->
  acceptResponse r =
    ([SetTranscription (with_progress Processing 50); ReadText;
      SetTranscription (with_transcript chosen 100)], Normal tt).
Proof.
  intros Hb Hp Ht Hc. unfold acceptResponse, text, parse.
  rewrite Hb; cbn. rewrite Hp; cbn.
  destruct (lookup fields "transcript") as [first|]; cbn in *.
  - destruct (truthy first) eqn:E; cbn.
    + subst chosen. now rewrite E.
    + destruct (lookup fields "text") as [second|]; cbn; subst chosen.
      * now rewrite Ht.
      * discriminate.
  - destruct (lookup fields "text") as [second|]; cbn; subst chosen.
    + now rewrite Ht.
    + discriminate.
Qed.

Lemma transcribeAudio_accept (s : AppState) (f : File.t) (r : Response.t) (body : string)
      (fields : list (string * JSValue)) (chosen : JSValue) :
  file s = Some f ->
  Response.ok r = true ->
  Response.body r = inr body ->
  JSON_parse body = inr (JObject fields) ->
  truthy chosen = true ->
  (let first := match lookup fields "transcript" with Some v => v | None => JUndefined end in
   chosen = if truthy first then first
            else match lookup fields "text" with Some v => v | None => JUndefined end) ->
  transcribeAudio s (Resolved r) =
    ([SetTranscription (with_progress Uploading 0); SetTimeout TIMEOUT_MS;
      Fetch "/transcribe" f; ClearTimeout;
      SetTranscription (with_progress Processing 50); ReadText;
      SetTranscription (with_transcript chosen 100)], Normal tt).
Proof.
  intros Hf Hok Hb Hp Ht Hc.
  unfold transcribeAudio, attempt, fetch. rewrite Hf.
  cbn -[acceptResponse rejectResponse]. rewrite Hok.
  cbn -[acceptResponse rejectResponse].
  now rewrite (accept_object r body fields chosen Hb Hp Ht Hc).
Qed.

(** C1: a 2xx response whose body parses to an object with a non-empty
    string [transcript] ends in success with exactly that string and
    progress 100, whatever [text] holds; when [transcript] is absent or the
    empty string and [text] is a non-empty string, the transcript is that
    of [text]. *)
Theorem transcript_then_text (s : AppState) (f : File.t) (r : Response.t) (body t : string)
        (fields : list (string * JSValue)) :
  file s = Some f ->
  Response.ok r = true ->
  Response.body r = inr body ->
  JSON_parse body = inr (JObject fields) ->
  t <> EmptyString ->
  lookup fields "transcript" = Some (JString t) \/
  ((lookup fields "transcript" = None \/
    lookup fields "transcript" = Some (JString EmptyString)) /\
   lookup fields "text" = Some (JString t)) ->
  completion (transcribeAudio s (Resolved r)) = Normal tt /\
  transcription (exec s (transcribeAudio s (Resolved r))) =
    {| status := Success; transcript := Some (JString t); error := None;
       progress := Some 100%N; fullError := None |}.
Proof.
  intros Hf Hok Hb Hp Ht Hfields.
  rewrite (transcribeAudio_accept s f r body fields (JString t) Hf Hok Hb Hp).
  - split; reflexivity.
  - now apply truthy_string.
  - destruct Hfields as [-> | [[-> | ->] ->]]; cbv zeta.
    + now rewrite (truthy_string t Ht).
    + reflexivity.
    + reflexivity.
Qed.

(** *** Logs of composed computations *)

Lemma calls_bind {A B} (m : M A) (k : A -> M B) :
  calls (bind m k) =
    (calls m ++ match completion m with
                | Normal a => calls (k a)
                | Throw _ => []
                end)%list.
Proof.
  destruct m as [l [a|e]]; unfold bind, calls, completion; simpl.
  - now destruct (k a).
  - now rewrite app_nil_r.
Qed.

Lemma completion_bind {A B} (m : M A) (k : A -> M B) :
  completion (bind m k) =
    match completion m with
    | Normal a => completion (k a)
    | Throw e => Throw e
    end.
Proof.
  destruct m as [l [a|e]]; unfold bind, completion; simpl; [now destruct (k a) | reflexivity].
Qed.

Lemma calls_try {A} (m : M A) (h : Thrown -> M A) :
  calls (try m catch h) =
    (calls m ++ match completion m with
                | Normal _ => []
                | Throw e => calls (h e)
                end)%list.
Proof.
  destruct m as [l [a|e]]; unfold try_catch, calls, completion; simpl.
  - now rewrite app_nil_r.
  - now destruct (h e).
Qed.

Lemma completion_try {A} (m : M A) (h : Thrown -> M A) :
  completion (try m catch h) =
    match completion m with
    | Normal a => Normal a
    | Throw e => completion (h e)
    end.
Proof.
  destruct m as [l [a|e]]; unfold try_catch, completion; simpl; [reflexivity | now destruct (h e)].
Qed.

(** *** The [catch] block *)

(** An error named [AbortError] gets the timeout message, whatever its
    own message says, and the gateway notice is not raised. *)
Lemma classify_abort (e : JsError.t) :
  JsError.name e = "AbortError" ->
  classify (ThrownError e) =
    ([SetTranscription
        (with_error timedOut
           (Some (ErrorDetails "AbortError" (JsError.message e) (JsError.stack e)
                    (JsError.cause e) now)))],
     Normal tt).
Proof.
  intros Hn. unfold classify. rewrite Hn. reflexivity.
Qed.

(** The catch block always completes, with one [setTranscription], of an
    error state, as its last call. *)
Lemma classify_shape (thrown : Thrown) :
  exists (raise : list Call) (msg : string) (d : Diagnostic),
    classify thrown = ((raise ++ [SetTranscription (with_error msg (Some d))])%list, Normal tt) /\
    (raise = [] \/ raise = [SetShowNgrokWarning true]).
Proof.
  destruct thrown as [e|v]; unfold classify.
  - destruct (String.eqb (JsError.name e) "AbortError").
    { exists [], timedOut. eexists. split; [reflexivity | now left]. }
    destruct (includes (JsError.message e) "Failed to fetch" ||
              includes (JsError.message e) "NetworkError" ||
              includes (JsError.message e) "TypeError").
    { exists [SetShowNgrokWarning true], unreachable. eexists. split; [reflexivity | now right]. }
    destruct (includes (JsError.message e) "ngrok warning").
    { exists [SetShowNgrokWarning true], (JsError.message e). eexists.
      split; [reflexivity | now right]. }
    exists [], (JsError.message e). eexists. split; [reflexivity | now left].
  - exists [SetShowNgrokWarning true], "Failed to transcribe audio". eexists.
    split; [reflexivity | now right].
Qed.

Lemma classify_visitFirst :
  classify (new_Error visitFirst) =
    ([SetShowNgrokWarning true;
      SetTranscription
        (with_error visitFirst (Some (ErrorDetails "Error" visitFirst stack_trace JUndefined now)))],
     Normal tt).
Proof. reflexivity. Qed.

Lemma classify_noTranscript :
  classify (new_Error noTranscript) =
    ([SetTranscription
        (with_error noTranscript (Some (ErrorDetails "Error" noTranscript stack_trace JUndefined now)))],
     Normal tt).
Proof. reflexivity. Qed.

(** *** Timeout *)

(** The timer in force when the request goes out is the one armed at line
    105, whatever the request comes to. *)
Lemma timer_in_force (s : AppState) (f : File.t) (settled : FetchOutcome) :
  file s = Some f ->
  timerAtFetch None (calls (transcribeAudio s settled)) = Some (Some TIMEOUT_MS).
Proof.
  intros Hf. rewrite (transcribeAudio_calls s f settled Hf), calls_try.
  unfold attempt, fetch.
  rewrite calls_bind_call, calls_bind, calls_bind_call.
  reflexivity.
Qed.

(** A request that fails: the catch block decides. *)
Lemma transcribeAudio_thrown (s : AppState) (f : File.t) (thrown : Thrown) :
  file s = Some f ->
  exec s (transcribeAudio s (Rejected thrown)) =
    fold_left apply (calls (classify thrown))
      (apply s (SetTranscription (with_progress Uploading 0))) /\
  completion (transcribeAudio s (Rejected thrown)) = Normal tt.
Proof.
  intros Hf. destruct (classify_shape thrown) as (raise & msg & d & Hc & _).
  unfold transcribeAudio, attempt, fetch. rewrite Hf.
  cbn -[classify]. rewrite Hc. split; reflexivity.
Qed.

(** C3: [transcribeAudio] arms its abort timer for 120000 ms before it
    sends the request.  A request that would settle only after more than
    120000 ms, or never, does settle under that timer, and only as a
    rejection named [AbortError]; the attempt then ends in the error state
    with the message that asks for a shorter file, and the gateway notice
    is left as it was.  A request that settles in less than 120000 ms is
    not touched by the timer.  The name test comes first in the catch
    block: an error named [AbortError] gets the timeout message whatever
    its own message contains, while every other failure of the request is
    classified differently: with the unable-to-connect message and the
    notice raised when its message holds [Failed to fetch], [NetworkError]
    or [TypeError], and with its own message otherwise. *)
Theorem timeout_classified_first (s : AppState) (f : File.t) (net : Network) :
  file s = Some f ->
  match net with
  | SettlesAfter ms _ => (120000 < ms)%N
  | NeverSettles => True
  end ->
  (forall settled,
     timerAtFetch None (calls (transcribeAudio s settled)) = Some (Some 120000%N)) /\
  (exists settled, attemptSettles s net settled) /\
  (forall settled, attemptSettles s net settled ->
     exists e,
       settled = Rejected (ThrownError e) /\
       JsError.name e = "AbortError" /\
       completion (transcribeAudio s settled) = Normal tt /\
       transcription (exec s (transcribeAudio s settled)) =
         with_error "Request timed out. Please try again with a shorter audio file."
           (Some (ErrorDetails "AbortError" (JsError.message e) (JsError.stack e)
                    (JsError.cause e) now)) /\
       showNgrokWarning (exec s (transcribeAudio s settled)) = showNgrokWarning s) /\
  (forall ms outcome settled,
     (ms < 120000)%N -> attemptSettles s (SettlesAfter ms outcome) settled ->
     settled = outcome) /\
  (forall e, JsError.name e = "AbortError" ->
     transcription (exec s (transcribeAudio s (Rejected (ThrownError e)))) =
       with_error "Request timed out. Please try again with a shorter audio file."
         (Some (ErrorDetails "AbortError" (JsError.message e) (JsError.stack e)
                  (JsError.cause e) now)) /\
     showNgrokWarning (exec s (transcribeAudio s (Rejected (ThrownError e)))) =
       showNgrokWarning s) /\
  (forall e, JsError.name e <> "AbortError" ->
     error (transcription (exec s (transcribeAudio s (Rejected (ThrownError e))))) =
       Some (if includes (JsError.message e) "Failed to fetch" ||
                includes (JsError.message e) "NetworkError" ||
                includes (JsError.message e) "TypeError"
             then "Unable to connect to the transcription service. Please visit the API URL first to bypass the ngrok warning page."
             else JsError.message e) /\
     showNgrokWarning (exec s (transcribeAudio s (Rejected (ThrownError e)))) =
       if includes (JsError.message e) "Failed to fetch" ||
          includes (JsError.message e) "NetworkError" ||
          includes (JsError.message e) "TypeError" ||
          includes (JsError.message e) "ngrok warning"
       then true else showNgrokWarning s).
Proof.
  intros Hf Hlate.
  assert (forall e, JsError.name e = "AbortError" ->
            completion (transcribeAudio s (Rejected (ThrownError e))) = Normal tt /\
            transcription (exec s (transcribeAudio s (Rejected (ThrownError e)))) =
              with_error timedOut
                (Some (ErrorDetails "AbortError" (JsError.message e) (JsError.stack e)
                         (JsError.cause e) now)) /\
            showNgrokWarning (exec s (transcribeAudio s (Rejected (ThrownError e)))) =
              showNgrokWarning s) as Habort.
  { intros e He. destruct (transcribeAudio_thrown s f (ThrownError e) Hf) as [-> ->].
    rewrite (classify_abort e He). repeat split. }
  split; [|split; [|split; [|split; [|split]]]].
  - intros settled. apply (timer_in_force s f settled Hf).
  - exists (Rejected (ThrownError abortError)). unfold attemptSettles.
    rewrite (timer_in_force s f _ Hf).
    destruct net as [ms outcome|].
    + apply race_aborted; [unfold TIMEOUT_MS; lia | reflexivity].
    + now apply race_aborted_pending.
  - intros settled Hs. unfold attemptSettles in Hs.
    rewrite (timer_in_force s f _ Hf) in Hs.
    assert (exists e, settled = Rejected (ThrownError e) /\ JsError.name e = "AbortError")
      as (e & -> & He).
    { inversion Hs; subst.
      - unfold TIMEOUT_MS in *. lia.
      - now exists e.
      - now exists e. }
    exists e. destruct (Habort e He) as (Hdone & Ht & Hn). now repeat split.
  - intros ms outcome settled Hms Hs. unfold attemptSettles in Hs.
    rewrite (timer_in_force s f _ Hf) in Hs.
    inversion Hs; subst; [reflexivity|]. unfold TIMEOUT_MS in *. lia.
  - intros e He. destruct (Habort e He) as (_ & Ht & Hn). now split.
  - intros e He. destruct (transcribeAudio_thrown s f (ThrownError e) Hf) as [-> _].
    unfold classify.
    destruct (String.eqb_spec (JsError.name e) "AbortError") as [Hn|_]; [contradiction|].
    destruct (includes (JsError.message e) "Failed to fetch" ||
              includes (JsError.message e) "NetworkError" ||
              includes (JsError.message e) "TypeError"); cbn; [now split|].
    destruct (includes (JsError.message e) "ngrok warning"); now split.
Qed.

(** *** Error responses *)

Lemma looksLikeNgrokPage_spec (errorText : string) :
  looksLikeNgrokPage errorText = true <-> hasMarker errorText.
Proof.
  unfold looksLikeNgrokPage, hasMarker.
  rewrite !orb_true_iff. tauto.
Qed.

(** The text that line 163 inspects, in the two cases where the body is
    obtained: decoded and serialised again when the response declares
    JSON, as it is otherwise. *)
Lemma readErrorText_raw (r : Response.t) (raw : string) :
  declaresJson r = false ->
  Response.body r = inr raw ->
  readErrorText r = ([ReadText], Normal raw).
Proof.
  intros Hj Hb. unfold readErrorText, text. rewrite Hj, Hb. reflexivity.
Qed.

Lemma readErrorText_decoded (r : Response.t) (raw : string) (v : JSValue) :
  declaresJson r = true ->
  Response.body r = inr raw ->
  JSON_parse raw = inr v ->
  readErrorText r = ([ReadJson], Normal (JSON_stringify v)).
Proof.
  intros Hj Hb Hp. unfold readErrorText, json, parse. rewrite Hj, Hb. cbn.
  rewrite Hp. reflexivity.
Qed.

(** When the body cannot be decoded the fixed text stands in for it. *)
Lemma readErrorText_undecodable (r : Response.t) (raw : string) (e : JsError.t) :
  declaresJson r = true ->
  Response.body r = inr raw ->
  JSON_parse raw = inl e ->
  readErrorText r = ([ReadJson], Normal "Unable to parse error response").
Proof.
  intros Hj Hb Hp. unfold readErrorText, json, parse. rewrite Hj, Hb. cbn.
  rewrite Hp. reflexivity.
Qed.

(** Every error response is read by exactly one decoding call, and the
    reading never throws. *)
Lemma readErrorText_shape (r : Response.t) :
  exists errorText,
    readErrorText r = ([if declaresJson r then ReadJson else ReadText], Normal errorText).
Proof.
  unfold readErrorText, json, text, parse.
  destruct (declaresJson r), (Response.body r) as [e|raw]; cbn;
    try (eexists; reflexivity).
  destruct (JSON_parse raw); cbn; eexists; reflexivity.
Qed.

Lemma transcribeAudio_gateway (s : AppState) (f : File.t) (r : Response.t)
      (read : Call) (errorText : string) :
  file s = Some f ->
  Response.ok r = false ->
  readErrorText r = ([read], Normal errorText) ->
  hasMarker errorText ->
  transcribeAudio s (Resolved r) =
    ([SetTranscription (with_progress Uploading 0); SetTimeout TIMEOUT_MS;
      Fetch "/transcribe" f; ClearTimeout; read;
      SetShowNgrokWarning true; SetShowNgrokWarning true;
      SetTranscription
        (with_error visitFirst
           (Some (ErrorDetails "Error" visitFirst stack_trace JUndefined now)))],
     Normal tt).
Proof.
  intros Hf Hok Hread Hm. apply looksLikeNgrokPage_spec in Hm.
  unfold transcribeAudio, attempt, fetch, rejectResponse. rewrite Hf.
  cbn -[readErrorText classify new_Error]. rewrite Hok.
  cbn -[readErrorText classify new_Error]. rewrite Hread.
  cbn -[classify new_Error]. rewrite Hm.
  cbn -[classify new_Error].
  change (new_Error "Please visit the API URL first to bypass the ngrok warning page")
    with (new_Error visitFirst).
  rewrite classify_visitFirst. reflexivity.
Qed.

(** C5, as the code has it: for a response with a status outside 200-299,
    whatever that status, if the text the code obtains for the body holds
    one of the three markers, the gateway notice is raised and the error
    message tells the user to visit the API URL first.  The text obtained
    is the raw body when the response does not declare JSON, and the
    serialisation of the decoded value when it declares JSON and the body
    parses. *)
Theorem gateway_page_detected (s : AppState) (f : File.t) (r : Response.t) (raw : string) :
  file s = Some f ->
  Response.ok r = false ->
  Response.body r = inr raw ->
  (declaresJson r = false /\ hasMarker raw) \/
  (declaresJson r = true /\
   exists v, JSON_parse raw = inr v /\ hasMarker (JSON_stringify v)) ->
  showNgrokWarning (exec s (transcribeAudio s (Resolved r))) = true /\
  transcription (exec s (transcribeAudio s (Resolved r))) =
    with_error "Please visit the API URL first to bypass the ngrok warning page"
      (Some (ErrorDetails "Error" visitFirst stack_trace JUndefined now)).
Proof.
  intros Hf Hok Hb [[Hj Hm] | [Hj (v & Hp & Hm)]].
  - rewrite (transcribeAudio_gateway s f r ReadText raw Hf Hok
               (readErrorText_raw r raw Hj Hb) Hm).
    split; reflexivity.
  - rewrite (transcribeAudio_gateway s f r ReadJson (JSON_stringify v) Hf Hok
               (readErrorText_decoded r raw v Hj Hb Hp) Hm).
    split; reflexivity.
Qed.

(** *** A parsed body without a transcript *)

Lemma transcribeAudio_parsed (s : AppState) (f : File.t) (r : Response.t) (body : string)
      (result : JSValue) :
  file s = Some f ->
  Response.ok r = true ->
  Response.body r = inr body ->
  JSON_parse body = inr result ->
  transcribeAudio s (Resolved r) =
    (setTranscription (with_progress Uploading 0) ;;
     try (call (SetTimeout TIMEOUT_MS) ;; call (Fetch "/transcribe" f) ;;
          call ClearTimeout ;;
          setTranscription (with_progress Processing 50) ;;
          call ReadText ;;
          first <- get result "transcript" ;;
          chosen <- (if truthy first then ret first else get result "text") ;;
          if truthy chosen then setTranscription (with_transcript chosen 100)
          else throw (new_Error "No transcript received from server"))
     catch classify).
Proof.
  intros Hf Hok Hb Hp.
  unfold transcribeAudio, attempt, fetch, acceptResponse, text, parse. rewrite Hf.
  cbn -[classify get new_Error]. rewrite Hok, Hb.
  cbn -[classify get new_Error]. rewrite Hp.
  cbn -[classify get new_Error].
  destruct (get result "transcript") as [l [first|e]]; cbn -[classify get new_Error];
    [|reflexivity].
  destruct (truthy first); [reflexivity|].
  destruct (get result "text") as [l' [second|e]]; reflexivity.
Qed.

(** Where C6 holds: the body parses to something other than [null], and
    neither [transcript] nor [text] is there with a truthy value. *)
Lemma no_transcript_received (s : AppState) (f : File.t) (r : Response.t) (body : string)
      (result : JSValue) :
  file s = Some f ->
  Response.ok r = true ->
  Response.body r = inr body ->
  JSON_parse body = inr result ->
  result <> JNull -> result <> JUndefined ->
  (forall fields v, result = JObject fields ->
     lookup fields "transcript" = Some v \/ lookup fields "text" = Some v ->
     truthy v = false) ->
  transcription (exec s (transcribeAudio s (Resolved r))) =
    with_error noTranscript
      (Some (ErrorDetails "Error" noTranscript stack_trace JUndefined now)).
Proof.
  intros Hf Hok Hb Hp Hnull Hundef Hfalsy.
  rewrite (transcribeAudio_parsed s f r body result Hf Hok Hb Hp).
  destruct result as [| |b|x|t|items|fields]; try contradiction; try reflexivity.
  unfold get.
  destruct (lookup fields "transcript") as [first|] eqn:E1.
  - cbn -[classify new_Error].
    rewrite (Hfalsy fields first eq_refl (or_introl E1)).
    destruct (lookup fields "text") as [second|] eqn:E2; cbn -[classify new_Error].
    + rewrite (Hfalsy fields second eq_refl (or_intror E2)). reflexivity.
    + reflexivity.
  - cbn -[classify new_Error].
    destruct (lookup fields "text") as [second|] eqn:E2; cbn -[classify new_Error].
    + rewrite (Hfalsy fields second eq_refl (or_intror E2)). reflexivity.
    + reflexivity.
Qed.

(** C6 at the body [null]: the body parses, no field is present, and the
    attempt ends in the error state, but the error is the [TypeError] that
    reading [result.transcript] throws at line 198; the message shown is
    the one the catch block derives from the engine's text for it. *)
Theorem null_body_type_error (s : AppState) (f : File.t) (r : Response.t) (body : string) :
  file s = Some f ->
  Response.ok r = true ->
  Response.body r = inr body ->
  JSON_parse body = inr JNull ->
  status (transcription (exec s (transcribeAudio s (Resolved r)))) = Error /\
  fullError (transcription (exec s (transcribeAudio s (Resolved r)))) =
    Some (ErrorDetails "TypeError" (null_read_message "transcript") stack_trace JUndefined now) /\
  (error (transcription (exec s (transcribeAudio s (Resolved r)))) =
     Some (null_read_message "transcript") \/
   error (transcription (exec s (transcribeAudio s (Resolved r)))) = Some unreachable).
Proof.
  intros Hf Hok Hb Hp.
  rewrite (transcribeAudio_parsed s f r body JNull Hf Hok Hb Hp).
  unfold get, classify. cbn.
  destruct (includes (null_read_message "transcript") "Failed to fetch" ||
            includes (null_read_message "transcript") "NetworkError" ||
            includes (null_read_message "transcript") "TypeError"); cbn.
  - repeat split. now right.
  - destruct (includes (null_read_message "transcript") "ngrok warning"); cbn;
      repeat split; now left.
Qed.

(** *** Processing and decoding *)

Lemma acceptResponse_prefix (r : Response.t) :
  exists tail, calls (acceptResponse r) =
    SetTranscription (with_progress Processing 50) :: ReadText :: tail.
Proof.
  unfold acceptResponse, text, setTranscription.
  rewrite calls_bind_call, calls_bind, calls_try, calls_bind, calls_bind_call.
  eexists. cbn [app]. reflexivity.
Qed.

Lemma rejectResponse_calls (r : Response.t) :
  exists (errorText msg : string),
    rejectResponse r =
      (((if declaresJson r then ReadJson else ReadText) ::
        (if looksLikeNgrokPage errorText then [SetShowNgrokWarning true] else []))%list,
       Throw (new_Error msg)).
Proof.
  unfold rejectResponse.
  destruct (readErrorText_shape r) as (errorText & ->).
  exists errorText. cbn -[new_Error looksLikeNgrokPage].
  destruct (looksLikeNgrokPage errorText); cbn -[new_Error]; eexists; reflexivity.
Qed.

(** The log of an attempt whose response is not [ok]: the body is read
    right after the timer is cleared, and what follows only raises the
    notice and stores an error state. *)
Lemma transcribeAudio_rejected (s : AppState) (f : File.t) (r : Response.t) :
  file s = Some f ->
  Response.ok r = false ->
  exists (raise : list Call) (msg : string) (d : Diagnostic),
    transcribeAudio s (Resolved r) =
      ((SetTranscription (with_progress Uploading 0) :: SetTimeout TIMEOUT_MS ::
        Fetch "/transcribe" f :: ClearTimeout ::
        (if declaresJson r then ReadJson else ReadText) ::
        raise ++ [SetTranscription (with_error msg (Some d))])%list, Normal tt) /\
    Forall (fun c => c = SetShowNgrokWarning true) raise.
Proof.
  intros Hf Hok.
  destruct (rejectResponse_calls r) as (errorText & msg & Hrej).
  destruct (classify_shape (new_Error msg)) as (raise & shown & d & Hc & Hraise).
  unfold transcribeAudio, attempt, fetch. rewrite Hf.
  cbn -[rejectResponse classify new_Error]. rewrite Hok.
  cbn -[rejectResponse classify new_Error]. rewrite Hrej.
  cbn -[classify new_Error]. rewrite Hc.
  exists ((if looksLikeNgrokPage errorText then [SetShowNgrokWarning true] else []) ++ raise)%list,
    shown, d.
  split.
  - cbn. now rewrite <- app_assoc.
  - apply Forall_app. split.
    + destruct (looksLikeNgrokPage errorText); repeat constructor.
    + destruct Hraise as [-> | ->]; repeat constructor.
Qed.

Lemma existsb_raise (st : Status) (raise : list Call) :
  Forall (fun c => c = SetShowNgrokWarning true) raise ->
  existsb (entersStatus st) raise = false.
Proof.
  induction 1 as [|c raise -> _ IH]; [reflexivity | exact IH].
Qed.

(** C8, as the code has it: for a response with [response.ok] the Request
    State is processing with progress 50 when the decoding of the body
    starts; for any other response the body is decoded while the Request
    State is still uploading with progress 0, and the attempt never sets
    the status processing. *)
Theorem processing_precedes_decoding (s : AppState) (f : File.t) (r : Response.t) :
  file s = Some f ->
  (Response.ok r = true ->
     option_map transcription (atDecode s (calls (transcribeAudio s (Resolved r)))) =
       Some {| status := Processing; transcript := None; error := None;
               progress := Some 50%N; fullError := None |}) /\
  (Response.ok r = false ->
     option_map transcription (atDecode s (calls (transcribeAudio s (Resolved r)))) =
       Some {| status := Uploading; transcript := None; error := None;
               progress := Some 0%N; fullError := None |} /\
     existsb (entersStatus Processing) (calls (transcribeAudio s (Resolved r))) = false).
Proof.
  intros Hf. split; intros Hok.
  - rewrite (transcribeAudio_calls s f _ Hf), calls_try.
    unfold attempt, fetch.
    rewrite calls_bind_call, calls_bind.
    cbn -[acceptResponse classify]. rewrite Hok.
    destruct (acceptResponse_prefix r) as (tail & Hp).
    destruct (acceptResponse r) as [l c]. unfold calls in Hp; simpl in Hp.
    subst l. reflexivity.
  - destruct (transcribeAudio_rejected s f r Hf Hok) as (raise & msg & d & -> & Hraise).
    split.
    + cbn. now destruct (declaresJson r).
    + cbn. rewrite existsb_app, (existsb_raise _ _ Hraise).
      now destruct (declaresJson r).
Qed.

End Lifecycle.

(** ** Requests in flight *)

Section InFlight.
Context `{Platform}.

Lemma segments_plain (l : list Call) :
  Forall (fun c => awaited c = false) l -> segments l = [l].
Proof.
  induction 1 as [|c l Hc _ IH]; [reflexivity|].
  cbn [segments]. now rewrite Hc, IH.
Qed.

Lemma plain_raise (raise : list Call) (t : TranscriptionState) :
  Forall (fun c => c = SetShowNgrokWarning true) raise ->
  Forall (fun c => awaited c = false) (raise ++ [SetTranscription t]).
Proof.
  intros Hr. apply Forall_app. split.
  - eapply Forall_impl; [|exact Hr]. now intros c ->.
  - now repeat constructor.
Qed.

(** A response with [response.ok] either ends in success or throws after
    the body has been read; nothing is awaited after the read. *)
Lemma acceptResponse_shape (r : Response.t) :
  (exists chosen,
     acceptResponse r =
       ([SetTranscription (with_progress Processing 50); ReadText;
         SetTranscription (with_transcript chosen 100)], Normal tt)) \/
  (exists e,
     acceptResponse r =
       ([SetTranscription (with_progress Processing 50); ReadText], Throw e)).
Proof.
  unfold acceptResponse, text, parse.
  destruct (Response.body r) as [e|raw]; cbn -[new_Error get].
  { right. eexists. reflexivity. }
  destruct (JSON_parse raw) as [e|result]; cbn -[new_Error get].
  { right. eexists. reflexivity. }
  destruct result as [| |b|x|t|items|fields]; cbn -[new_Error];
    try (right; eexists; reflexivity).
  destruct (lookup fields "transcript") as [first|]; cbn -[new_Error].
  - destruct (truthy first) eqn:T1; cbn -[new_Error].
    + rewrite T1. left; eexists; reflexivity.
    + destruct (lookup fields "text") as [second|]; cbn -[new_Error].
      * destruct (truthy second); [left | right]; eexists; reflexivity.
      * right; eexists; reflexivity.
  - destruct (lookup fields "text") as [second|]; cbn -[new_Error].
    + destruct (truthy second); [left | right]; eexists; reflexivity.
    + right; eexists; reflexivity.
Qed.

(** Where an attempt is suspended: at [fetch], and once more at the read
    of the body when a response has arrived. *)
Lemma transcribeAudio_segments (s : AppState) (f : File.t) (settled : FetchOutcome) :
  file s = Some f ->
  let sent := [SetTranscription (with_progress Uploading 0); SetTimeout TIMEOUT_MS;
               Fetch "/transcribe" f] in
  exists tail,
    segments (calls (transcribeAudio s settled)) = [sent; tail] \/
    segments (calls (transcribeAudio s settled)) = [sent; [ClearTimeout; ReadJson]; tail] \/
    segments (calls (transcribeAudio s settled)) = [sent; [ClearTimeout; ReadText]; tail] \/
    segments (calls (transcribeAudio s settled)) =
      [sent; [ClearTimeout; SetTranscription (with_progress Processing 50); ReadText]; tail].
Proof.
  intros Hf sent. destruct settled as [r|thrown].
  - destruct (Response.ok r) eqn:Hok.
    + assert (exists tail,
                calls (transcribeAudio s (Resolved r)) =
                  (sent ++ [ClearTimeout; SetTranscription (with_progress Processing 50);
                            ReadText] ++ tail)%list /\
                Forall (fun c => awaited c = false) tail) as (tail & -> & Hplain).
      { unfold transcribeAudio, attempt, fetch. rewrite Hf.
        cbn -[acceptResponse classify]. rewrite Hok.
        cbn -[acceptResponse classify].
        destruct (acceptResponse_shape r) as [(chosen & ->) | (e & ->)].
        - eexists. split; [reflexivity | now repeat constructor].
        - destruct (classify_shape e) as (raise & msg & d & Hc & Hraise).
          cbn -[classify]. rewrite Hc.
          eexists. split; [reflexivity|].
          apply plain_raise. destruct Hraise as [-> | ->]; now repeat constructor. }
      exists tail. right; right; right.
      cbn. now rewrite (segments_plain tail Hplain).
    + destruct (transcribeAudio_rejected s f r Hf Hok) as (raise & msg & d & -> & Hraise).
      exists (raise ++ [SetTranscription (with_error msg (Some d))])%list.
      pose proof (segments_plain _ (plain_raise raise (with_error msg (Some d)) Hraise)) as Hs.
      destruct (declaresJson r); [right; left | right; right; left];
        cbn -[app]; now rewrite Hs.
  - destruct (classify_shape thrown) as (raise & msg & d & Hc & Hraise).
    exists (raise ++ [SetTranscription (with_error msg (Some d))])%list. left.
    unfold transcribeAudio, attempt, fetch. rewrite Hf.
    cbn -[classify]. rewrite Hc.
    assert (Forall (fun c => awaited c = false)
              (raise ++ [SetTranscription (with_error msg (Some d))])) as Hplain.
    { apply plain_raise. destruct Hraise as [-> | ->]; now repeat constructor. }
    cbn -[app]. now rewrite (segments_plain _ Hplain).
Qed.

(** A call of [transcribeAudio] with a file selected puts one more request
    in flight, whatever the Request State is. *)
Lemma submit_adds_request (settled : FetchOutcome) (w : World) :
  file (app w) <> None ->
  inFlight (submit settled w) = S (inFlight w).
Proof.
  intros Hf. destruct (file (app w)) as [f|] eqn:E; [clear Hf | contradiction].
  unfold submit, inFlight.
  destruct (transcribeAudio_segments (app w) f settled E) as (tail & [-> | [-> | [-> | ->]]]);
    cbn; rewrite length_app; cbn; lia.
Qed.

(** A submission from a state with nothing in flight leaves at most one
    attempt suspended, and that attempt keeps the button disabled. *)
Lemma submit_oneAtMost (settled : FetchOutcome) (w : World) :
  pending w = [] -> oneAtMost (submit settled w).
Proof.
  intros Hp. unfold submit. rewrite Hp.
  destruct (file (app w)) as [f|] eqn:E.
  - destruct (transcribeAudio_segments (app w) f settled E) as (tail & [-> | [-> | [-> | ->]]]);
      right; do 2 eexists; (split; [reflexivity|]); cbn; tauto.
  - unfold transcribeAudio. rewrite E. now left.
Qed.

Lemma busy_disabled (s : AppState) (segs : list (list Call)) :
  busy s segs -> transcribeDisabled s = true.
Proof.
  unfold transcribeDisabled. destruct segs; cbn; intros [Hb _];
    now destruct (status (transcription s)).
Qed.

Lemma act_oneAtMost (w : World) (a : Action) :
  oneAtMost w -> oneAtMost (act w a).
Proof.
  intros Hw. destruct a as [settled|i]; cbn [act].
  - unfold click. destruct (audioUrl (app w)); [|exact Hw].
    destruct Hw as [Hp | (seg & rest & Hp & Hb)].
    + destruct (transcribeDisabled (app w)); [now left | now apply submit_oneAtMost].
    + rewrite (busy_disabled _ _ Hb). right. now exists seg, rest.
  - unfold resume. destruct Hw as [Hp | (seg & rest & Hp & Hb)]; rewrite Hp.
    + destruct i; now left.
    + destruct i as [|j].
      * cbn [resumeAt]. destruct rest as [|seg' rest'].
        -- now left.
        -- right. exists seg', rest'. split; [reflexivity|]. apply Hb.
      * cbn [resumeAt]. destruct j; right; exists seg, rest; now split.
Qed.

Lemma run_oneAtMost (actions : list Action) (w : World) :
  oneAtMost w -> oneAtMost (fold_left act actions w).
Proof.
  revert w; induction actions as [|a actions IH]; intros w Hw; [exact Hw|].
  cbn [fold_left]. apply IH. now apply act_oneAtMost.
Qed.

(** C4, as the code has it: the Transcribe button is disabled exactly
    while the status is uploading or processing, and in a run of clicks on
    that button and of resumptions of suspended attempts, started with
    nothing in flight, at most one request is in flight at any time.
    [transcribeAudio] itself has no test of the status: called with a file
    selected it puts one more request in flight, whatever the Request
    State and whatever is pending. *)
Theorem one_request_by_the_button (w : World) (actions : list Action) :
  pending w = [] ->
  (inFlight (fold_left act actions w) <= 1)%nat /\
  (forall s, transcribeDisabled s = true <->
             status (transcription s) = Uploading \/ status (transcription s) = Processing) /\
  (forall settled w', file (app w') <> None ->
                      inFlight (submit settled w') = S (inFlight w')).
Proof.
  intros Hp. split; [|split].
  - destruct (run_oneAtMost actions w (or_introl Hp)) as [Hq | (seg & rest & Hq & _)];
      unfold inFlight; rewrite Hq; cbn; lia.
  - intros s. unfold transcribeDisabled.
    destruct (status (transcription s)); split; intros Hs;
      try reflexivity; try discriminate; try tauto;
      destruct Hs; discriminate.
  - intros settled w'. apply submit_adds_request.
Qed.

End InFlight.

(** ** The properties at concrete inputs *)

Lemma transcript_then_text_witness :
  transcription (exec ready (@transcribeAudio tabulated ready (Resolved helloResponse))) =
    with_transcript (JString "hello world") 100 /\
  transcription (exec ready (@transcribeAudio tabulated ready (Resolved altResponse))) =
    with_transcript (JString "alt text") 100.
Proof.
  split.
  - apply (@transcript_then_text tabulated ready (song 1000) helloResponse
             (field "transcript" "hello world") "hello world"
             [("transcript", JString "hello world")]);
      try reflexivity; [discriminate | left; reflexivity].
  - apply (@transcript_then_text tabulated ready (song 1000) altResponse
             (field "text" "alt text") "alt text" [("text", JString "alt text")]);
      try reflexivity; [discriminate | right; split; [left|]; reflexivity].
Defined.

(** C2 as it is worded fails: after a text file is offered to a freshly
    mounted component the Request State is not idle. *)
Lemma invalid_type_is_not_idle :
  startsWith (File.type notes) "audio/" = false /\
  status (transcription initial) = Idle /\
  status (transcription (exec initial (@handleFileSelect tabulated notes))) = Error /\
  status (transcription (exec initial (@handleFileSelect tabulated notes))) <> Idle.
Proof. repeat split; discriminate. Qed.

Lemma invalid_type_rejected_witness :
  exec initial (@handleFileSelect tabulated notes) =
    rejected initial "Please select a valid audio file".
Proof.
  apply (@invalid_type_rejected tabulated initial notes). reflexivity.
Defined.

Lemma timeout_classified_first_witness :
  exists settled, @attemptSettles tabulated ready lateNetwork settled /\
    transcription (exec ready (@transcribeAudio tabulated ready settled)) =
      with_error "Request timed out. Please try again with a shorter audio file."
        (Some (ErrorDetails "AbortError" "signal is aborted without reason" "AbortError"
                 JUndefined "2024-01-01T00:00:00.000Z")).
Proof.
  assert (@attemptSettles tabulated ready lateNetwork (Rejected (ThrownError abortError)))
    as Hs by (apply race_aborted; [discriminate | reflexivity]).
  exists (Rejected (ThrownError abortError)). split; [exact Hs|].
  destruct (@timeout_classified_first tabulated ready (song 1000) lateNetwork
              eq_refl eq_refl) as (_ & _ & Hall & _).
  destruct (Hall _ Hs) as (e & He & _ & _ & Ht & _).
  injection He as <-. exact Ht.
Defined.

(** C4 as it is worded fails: a second call of [transcribeAudio] while the
    status is uploading is neither ignored nor does it replace the pending
    attempt; two requests are in flight. *)
Lemma second_call_second_request :
  status (transcription (app (@submit tabulated (Resolved helloResponse) quiet))) = Uploading /\
  inFlight (@submit tabulated (Resolved helloResponse) quiet) = 1%nat /\
  inFlight (@submit tabulated (Resolved altResponse)
              (@submit tabulated (Resolved helloResponse) quiet)) = 2%nat /\
  pending (@submit tabulated (Resolved altResponse)
             (@submit tabulated (Resolved helloResponse) quiet)) =
    (pending (@submit tabulated (Resolved helloResponse) quiet) ++
     [[[ClearTimeout; SetTranscription (with_progress Processing 50); ReadText];
       [SetTranscription (with_transcript (JString "alt text") 100)]]])%list.
Proof. repeat split. Qed.

Lemma one_request_by_the_button_witness :
  (inFlight (fold_left (@act tabulated) session quiet) <= 1)%nat.
Proof.
  apply (@one_request_by_the_button tabulated quiet session). reflexivity.
Defined.

(** C5 as it is worded fails: the body holds a marker, but the response
    declares JSON and the body does not parse; the text inspected is the
    fixed one, and the notice is not raised. *)
Lemma marker_in_undecodable_body :
  Response.ok blockedAsJson = false /\
  Response.body blockedAsJson = inr interstitial /\
  includes interstitial "ngrok.com" = true /\
  @declaresJson blockedAsJson = true /\
  @JSON_parse tabulated interstitial = inl syntaxError /\
  showNgrokWarning (exec ready (@transcribeAudio tabulated ready (Resolved blockedAsJson))) = false /\
  error (transcription (exec ready (@transcribeAudio tabulated ready (Resolved blockedAsJson)))) =
    Some "Server error (403): Unable to parse error response".
Proof. repeat split. Qed.

Lemma gateway_page_detected_witness :
  showNgrokWarning (exec ready (@transcribeAudio tabulated ready (Resolved blockedPage))) = true /\
  transcription (exec ready (@transcribeAudio tabulated ready (Resolved blockedPage))) =
    with_error "Please visit the API URL first to bypass the ngrok warning page"
      (Some (ErrorDetails "Error" visitFirst "Error" JUndefined "2024-01-01T00:00:00.000Z")).
Proof.
  apply (@gateway_page_detected tabulated ready (song 1000) blockedPage interstitial);
    try reflexivity.
  left. split; [reflexivity | left; reflexivity].
Defined.

Lemma null_body_type_error_witness :
  status (transcription (exec ready (@transcribeAudio tabulated ready (Resolved nullResponse)))) =
    Error /\
  fullError (transcription (exec ready (@transcribeAudio tabulated ready (Resolved nullResponse)))) =
    Some (ErrorDetails "TypeError" "Cannot read properties of null (reading 'transcript')"
            "Error" JUndefined "2024-01-01T00:00:00.000Z") /\
  error (transcription (exec ready (@transcribeAudio tabulated ready (Resolved nullResponse)))) =
    Some "Cannot read properties of null (reading 'transcript')" /\
  error (transcription (exec ready (@transcribeAudio tabulated ready (Resolved nullResponse)))) <>
    Some noTranscript.
Proof.
  destruct (@null_body_type_error tabulated ready (song 1000) nullResponse "null"
              eq_refl eq_refl eq_refl eq_refl) as (Hs & Hd & _).
  split; [exact Hs | split; [exact Hd | split; [reflexivity | discriminate]]].
Defined.

Lemma size_limit_witness :
  exec ready (@handleFileSelect tabulated (song (25 * 1024 * 1024 + 1))) =
    rejected ready "File size must be less than 25MB" /\
  file (exec ready (@handleFileSelect tabulated (song (25 * 1024 * 1024)))) =
    Some (song (25 * 1024 * 1024)).
Proof.
  split.
  - apply (@size_limit tabulated ready (song (25 * 1024 * 1024 + 1))); reflexivity.
  - apply (@size_limit tabulated ready (song (25 * 1024 * 1024))); reflexivity.
Defined.

(** C8 as it is worded fails: the body of a response with status 500 is
    decoded while the Request State is uploading, and the attempt never
    enters processing. *)
Lemma error_body_decoded_while_uploading :
  Response.ok serverError = false /\
  option_map transcription
    (atDecode ready (calls (@transcribeAudio tabulated ready (Resolved serverError)))) =
    Some (with_progress Uploading 0) /\
  existsb (entersStatus Processing)
    (calls (@transcribeAudio tabulated ready (Resolved serverError))) = false.
Proof. repeat split. Qed.

Lemma processing_precedes_decoding_witness :
  option_map transcription
    (atDecode ready (calls (@transcribeAudio tabulated ready (Resolved helloResponse)))) =
    Some (with_progress Processing 50) /\
  option_map transcription
    (atDecode ready (calls (@transcribeAudio tabulated ready (Resolved serverError)))) =
    Some (with_progress Uploading 0).
Proof.
  split.
  - apply (@processing_precedes_decoding tabulated ready (song 1000) helloResponse);
      reflexivity.
  - apply (@processing_precedes_decoding tabulated ready (song 1000) serverError);
      reflexivity.
Defined.

Lemma rejection_keeps_selection_witness :
  file (exec ready (@handleFileSelect tabulated notes)) = Some (song 1000) /\
  audioUrl (exec ready (@handleFileSelect tabulated notes)) = Some "blob:song.mp3".
Proof.
  destruct (@rejection_keeps_selection tabulated ready notes (or_introl eq_refl))
    as (Hf & Hu & _).
  split; [exact Hf | exact Hu].
Defined.

(** * More of the component *)

(** ** Every way an attempt can go *)

Section Attempts.
Context `{Platform}.

Lemma acceptResponse_cases (r : Response.t) :
  (exists body fields,
     Response.body r = inr body /\
     JSON_parse body = inr (JObject fields) /\
     truthy (transcriptOrText fields) = true /\
     acceptResponse r =
       ([SetTranscription (with_progress Processing 50); ReadText;
         SetTranscription (with_transcript (transcriptOrText fields) 100)], Normal tt)) \/
  (exists e,
     acceptResponse r =
       ([SetTranscription (with_progress Processing 50); ReadText], Throw e)).
Proof.
  destruct (Response.body r) as [e|body] eqn:Hb.
  { right. unfold acceptResponse, text. rewrite Hb. eexists. reflexivity. }
  destruct (JSON_parse body) as [e|result] eqn:Hp.
  { right. unfold acceptResponse, text, parse. rewrite Hb. cbn -[new_Error].
    rewrite Hp. eexists. reflexivity. }
  destruct result as [| |b|x|t|items|fields];
    try (right; unfold acceptResponse, text, parse; rewrite Hb; cbn -[new_Error];
         rewrite Hp; eexists; reflexivity).
  destruct (truthy (transcriptOrText fields)) eqn:Ht.
  - left. exists body, fields. repeat split; try assumption.
    now apply (accept_object r body fields).
  - right. unfold acceptResponse, text, parse. rewrite Hb. cbn -[new_Error].
    rewrite Hp. cbn -[new_Error]. unfold transcriptOrText in Ht.
    destruct (lookup fields "transcript") as [first|]; cbn -[new_Error] in *.
    + destruct (truthy first) eqn:T1; cbn -[new_Error].
      * congruence.
      * destruct (lookup fields "text") as [second|]; cbn -[new_Error] in *.
        -- rewrite Ht. eexists; reflexivity.
        -- eexists; reflexivity.
    + destruct (lookup fields "text") as [second|]; cbn -[new_Error] in *.
      * rewrite Ht. eexists; reflexivity.
      * eexists; reflexivity.
Qed.

Lemma raise_forall (raise : list Call) :
  raise = [] \/ raise = [SetShowNgrokWarning true] ->
  Forall (fun c => c = SetShowNgrokWarning true) raise.
Proof. intros [-> | ->]; now repeat constructor. Qed.

(** A request that fails: the catch block runs right after [sent]. *)
Lemma transcribeAudio_failed (s : AppState) (f : File.t) (thrown : Thrown) :
  file s = Some f ->
  transcribeAudio s (Rejected thrown) =
    ((sent f ++ calls (classify thrown))%list, Normal tt).
Proof.
  intros Hf. destruct (classify_shape thrown) as (raise & msg & d & Hc & _).
  unfold transcribeAudio, attempt, fetch. rewrite Hf.
  cbn -[classify]. now rewrite Hc.
Qed.

(** An [ok] response: what [acceptResponse] logs, then the catch block if it
    threw. *)
Lemma transcribeAudio_ok (s : AppState) (f : File.t) (r : Response.t) :
  file s = Some f ->
  Response.ok r = true ->
  transcribeAudio s (Resolved r) =
    ((sent f ++ ClearTimeout :: calls (acceptResponse r) ++
      match completion (acceptResponse r) with
      | Normal _ => []
      | Throw e => calls (classify e)
      end)%list, Normal tt).
Proof.
  intros Hf Hok. unfold transcribeAudio, attempt, fetch. rewrite Hf.
  cbn -[acceptResponse classify]. rewrite Hok.
  cbn -[acceptResponse classify].
  destruct (acceptResponse r) as [l [[]|e]]; cbn -[classify].
  - now rewrite app_nil_r.
  - destruct (classify_shape e) as (raise & msg & d & Hc & _). now rewrite Hc.
Qed.

Lemma transcribeAudio_attemptLog (s : AppState) (f : File.t) (settled : FetchOutcome) :
  file s = Some f ->
  attemptLog f (calls (transcribeAudio s settled)) /\
  completion (transcribeAudio s settled) = Normal tt.
Proof.
  intros Hf. destruct settled as [r|thrown].
  - destruct (Response.ok r) eqn:Hok.
    + rewrite (transcribeAudio_ok s f r Hf Hok). split; [|reflexivity].
      destruct (acceptResponse_cases r) as [(body & fields & _ & _ & Ht & ->) | (e & ->)].
      * now apply log_succeeded.
      * destruct (classify_shape e) as (raise & msg & d & Hc & Hraise).
        cbn -[classify sent]. rewrite Hc.
        now apply log_unusable, raise_forall.
    + destruct (transcribeAudio_rejected s f r Hf Hok) as (raise & msg & d & -> & Hraise).
      split; [|reflexivity].
      apply (log_refused f (if declaresJson r then ReadJson else ReadText) raise msg d);
        [now destruct (declaresJson r) | exact Hraise].
  - rewrite (transcribeAudio_failed s f thrown Hf). split; [|reflexivity].
    destruct (classify_shape thrown) as (raise & msg & d & Hc & Hraise).
    rewrite Hc. now apply log_failed, raise_forall.
Qed.

Lemma requests_app (l l' : list Call) :
  requests (l ++ l') = (requests l ++ requests l')%list.
Proof.
  induction l as [|c l IH]; [reflexivity|].
  destruct c; cbn; now rewrite ?IH.
Qed.

Lemma quiet_raise (raise : list Call) (t : TranscriptionState) :
  Forall (fun c => c = SetShowNgrokWarning true) raise ->
  requests (raise ++ [SetTranscription t]) = [] /\
  filter armsTimer (raise ++ [SetTranscription t]) = [] /\
  existsb clearsTimer (raise ++ [SetTranscription t]) = false.
Proof.
  induction 1 as [|c raise -> _ IH]; [now repeat split|].
  cbn. exact IH.
Qed.

(** X1: a call of [transcribeAudio] sends exactly one request when a file
    is selected, to [/transcribe] and with that file, and none otherwise.
    With the request it arms one timer, of 120000 ms, which is in force
    when the request goes out; it clears the timer exactly when the
    request is answered by a response (after a failure of the request the
    timer is left armed). *)
Theorem one_request_per_attempt (s : AppState) (settled : FetchOutcome) :
  requests (calls (transcribeAudio s settled)) =
    match file s with
    | Some f => [("/transcribe", f)]
    | None => []
    end /\
  filter armsTimer (calls (transcribeAudio s settled)) =
    match file s with
    | Some _ => [SetTimeout 120000]
    | None => []
    end /\
  timerAtFetch None (calls (transcribeAudio s settled)) =
    match file s with
    | Some _ => Some (Some 120000%N)
    | None => None
    end /\
  existsb clearsTimer (calls (transcribeAudio s settled)) =
    match file s, settled with
    | Some _, Resolved _ => true
    | _, _ => false
    end.
Proof.
  destruct (file s) as [f|] eqn:Hf.
  2:{ unfold transcribeAudio. rewrite Hf. now repeat split. }
  destruct (transcribeAudio_attemptLog s f settled Hf) as [Hlog _].
  assert (existsb clearsTimer (calls (transcribeAudio s settled)) =
            match settled with Resolved _ => true | Rejected _ => false end) as Hclear.
  { destruct settled as [r|thrown].
    - destruct (Response.ok r) eqn:Hok.
      + now rewrite (transcribeAudio_ok s f r Hf Hok).
      + now destruct (transcribeAudio_rejected s f r Hf Hok) as (raise & msg & d & -> & _).
    - rewrite (transcribeAudio_failed s f thrown Hf).
      destruct (classify_shape thrown) as (raise & msg & d & -> & Hraise).
      cbn. apply (quiet_raise raise _ (raise_forall raise Hraise)). }
  rewrite Hclear. clear Hclear.
  inversion Hlog as [raise msg d Hr | read raise msg d Hd Hr | raise msg d Hr | chosen Hc];
    try (destruct (quiet_raise raise (with_error msg (Some d)) Hr) as (Hq & Ha & _)).
  - cbn. rewrite Hq, Ha. now repeat split.
  - destruct read; try discriminate; cbn; rewrite Hq, Ha; now repeat split.
  - cbn. rewrite Hq, Ha. now repeat split.
  - now repeat split.
Qed.

Lemma run_last (s : AppState) (l : list Call) (t : TranscriptionState) :
  transcription (fold_left apply (l ++ [SetTranscription t]) s) = t.
Proof. now rewrite fold_left_app. Qed.

(** Every attempt ends by storing an error with its bundle or a truthy
    transcript. *)
Lemma attemptLog_end (f : File.t) (l : list Call) :
  attemptLog f l ->
  exists l' t,
    l = (l' ++ [SetTranscription t])%list /\
    ((exists msg d, t = with_error msg (Some d)) \/
     (exists chosen, truthy chosen = true /\ t = with_transcript chosen 100)).
Proof.
  intros [raise msg d Hr | read raise msg d Hd Hr | raise msg d Hr | chosen Hc].
  - exists (sent f ++ raise)%list, (with_error msg (Some d)).
    split; [now rewrite <- app_assoc | left; now exists msg, d].
  - exists (sent f ++ ClearTimeout :: read :: raise)%list, (with_error msg (Some d)).
    split; [now rewrite <- app_assoc | left; now exists msg, d].
  - exists (sent f ++ ClearTimeout :: SetTranscription (with_progress Processing 50) ::
            ReadText :: raise)%list, (with_error msg (Some d)).
    split; [now rewrite <- app_assoc | left; now exists msg, d].
  - exists (sent f ++ [ClearTimeout; SetTranscription (with_progress Processing 50);
                       ReadText])%list, (with_transcript chosen 100).
    split; [now rewrite <- app_assoc | right; now exists chosen].
Qed.

Lemma attemptCall_raise (raise : list Call) (msg : string) (d : Diagnostic) :
  Forall (fun c => c = SetShowNgrokWarning true) raise ->
  Forall attemptCall (raise ++ [SetTranscription (with_error msg (Some d))]).
Proof.
  intros Hr. apply Forall_app. split.
  - eapply Forall_impl; [|exact Hr]. now intros c ->.
  - repeat constructor. now exists msg.
Qed.

Lemma attemptLog_calls (f : File.t) (l : list Call) :
  attemptLog f l -> Forall attemptCall l.
Proof.
  intros [raise msg d Hr | read raise msg d Hd Hr | raise msg d Hr | chosen Hc];
    apply Forall_app; (split; [now repeat constructor|]).
  - now apply attemptCall_raise.
  - constructor; [exact I|]. constructor; [now destruct read|].
    now apply attemptCall_raise.
  - do 3 (constructor; [now cbn|]). now apply attemptCall_raise.
  - do 3 (constructor; [now cbn|]). repeat constructor. now exists chosen.
Qed.

(** Calls of an attempt touch the Request State and the notice only, and
    keep the Request State well formed. *)
Lemma run_attemptCalls (l : list Call) (s : AppState) :
  Forall attemptCall l ->
  touchesOnlyRequest s (fold_left apply l s) /\
  (wellFormed (transcription s) -> wellFormed (transcription (fold_left apply l s))).
Proof.
  intros Hl. revert s. induction Hl as [|c l Hc _ IH]; intros s.
  - cbn. unfold touchesOnlyRequest. repeat split; try tauto.
    now destruct (showNgrokWarning s).
  - cbn [fold_left]. destruct (IH (apply s c)) as [(H1 & H2 & H3 & H4 & H5 & H6 & H7 & H8) Hw].
    assert (touchesOnlyRequest s (apply s c) /\
            (wellFormed (transcription s) -> wellFormed (transcription (apply s c))))
      as [(G1 & G2 & G3 & G4 & G5 & G6 & G7 & G8) Gw].
    { unfold touchesOnlyRequest.
      destruct c; cbn in Hc; try contradiction; cbn; repeat split; try tauto;
        try (now destruct (showNgrokWarning s)). }
    split; [|tauto].
    unfold touchesOnlyRequest. repeat split; try congruence.
    destruct (showNgrokWarning s); [|reflexivity].
    cbn in G8. rewrite G8 in H8. exact H8.
Qed.

(** X2: whatever the outcome of the request, a call of [transcribeAudio]
    with a file selected throws nothing and ends with the status success
    or error, never uploading or processing.  When the page for that state
    can be rendered, the progress bar is hidden, exactly one of the error
    panel and the transcript panel is shown, and the Debug Info button is
    offered with every error (an error of an attempt always has its
    diagnostic bundle).  Rendering fails only after a success whose
    transcript is a value that React cannot render, an object or an array
    that holds one; then nothing is left on the page. *)
Theorem attempt_ends_settled (s : AppState) (f : File.t) (settled : FetchOutcome) :
  file s = Some f ->
  completion (transcribeAudio s settled) = Normal tt /\
  (status (transcription (exec s (transcribeAudio s settled))) = Success \/
   status (transcription (exec s (transcribeAudio s settled))) = Error) /\
  wellFormed (transcription (exec s (transcribeAudio s settled))) /\
  match render (exec s (transcribeAudio s settled)) with
  | Some page =>
      progressBar page = false /\
      transcriptPanel page = negb (errorPanel page) /\
      debugToggle page = errorPanel page
  | None =>
      exists t,
        transcription (exec s (transcribeAudio s settled)) = with_transcript t 100 /\
        truthy t = true /\ renderable t = false
  end.
Proof.
  intros Hf. destruct (transcribeAudio_attemptLog s f settled Hf) as [Hlog Hdone].
  split; [exact Hdone|].
  destruct (attemptLog_end f _ Hlog) as (l' & t & Hl & Ht).
  unfold render, renderThrows, showsTranscript, renderThrows, transcriptGuard,
    showsProgress, showsDebugToggle, showsError, exec.
  rewrite Hl, run_last.
  destruct Ht as [(msg & d & ->) | (chosen & Hc & ->)]; cbn.
  - repeat split; try (now right). now exists msg.
  - rewrite Hc. cbn.
    split; [now left|]. split; [now exists chosen|].
    destruct (renderable chosen) eqn:Hr; cbn.
    + now repeat split.
    + exists chosen. now repeat split.
Qed.

(** X3: the status success is reached only from a response with a status
    in 200-299 whose body parses to an object in which [transcript] or
    [text] is truthy, and the transcript stored is that value, [transcript]
    first. *)
Theorem success_needs_transcript (s : AppState) (f : File.t) (settled : FetchOutcome) :
  file s = Some f ->
  status (transcription (exec s (transcribeAudio s settled))) = Success ->
  exists r body fields,
    settled = Resolved r /\
    Response.ok r = true /\
    Response.body r = inr body /\
    JSON_parse body = inr (JObject fields) /\
    truthy (transcriptOrText fields) = true /\
    transcription (exec s (transcribeAudio s settled)) =
      with_transcript (transcriptOrText fields) 100.
Proof.
  intros Hf Hs.
  assert (forall prefix raise msg d,
            calls (transcribeAudio s settled) =
              (prefix ++ raise ++ [SetTranscription (with_error msg (Some d))])%list ->
            False) as Herror.
  { intros prefix raise msg d Hl. unfold exec in Hs.
    rewrite Hl, app_assoc, run_last in Hs. discriminate. }
  destruct settled as [r|thrown].
  - destruct (Response.ok r) eqn:Hok.
    + destruct (acceptResponse_cases r) as [(body & fields & Hb & Hp & Ht & Ha) | (e & Ha)].
      * exists r, body, fields. repeat split; try assumption.
        rewrite (transcribeAudio_ok s f r Hf Hok), Ha. reflexivity.
      * exfalso. destruct (classify_shape e) as (raise & msg & d & Hc & _).
        apply (Herror (sent f ++ [ClearTimeout; SetTranscription (with_progress Processing 50);
                                  ReadText])%list raise msg d).
        rewrite (transcribeAudio_ok s f r Hf Hok), Ha. cbn -[classify sent].
        rewrite Hc. cbn -[sent]. now rewrite <- app_assoc.
    + exfalso.
      destruct (transcribeAudio_rejected s f r Hf Hok) as (raise & msg & d & Hl & _).
      apply (Herror (sent f ++ [ClearTimeout; if declaresJson r then ReadJson else ReadText])%list
               raise msg d).
      rewrite Hl. cbn -[sent]. now rewrite <- app_assoc.
  - exfalso. destruct (classify_shape thrown) as (raise & msg & d & Hc & _).
    apply (Herror (sent f) raise msg d).
    rewrite (transcribeAudio_failed s f thrown Hf), Hc. reflexivity.
Qed.

(** X7: a call of [transcribeAudio], with or without a file and whatever
    the outcome, changes nothing but the Request State and the gateway
    notice, and never lowers the notice: the selected file, its audio
    source, the playback flag and the debug panel flag stay as they were. *)
Theorem attempt_touches_only_request (s : AppState) (settled : FetchOutcome) :
  touchesOnlyRequest s (exec s (transcribeAudio s settled)).
Proof.
  destruct (file s) as [f|] eqn:Hf.
  - destruct (transcribeAudio_attemptLog s f settled Hf) as [Hlog _].
    apply run_attemptCalls. now apply (attemptLog_calls f).
  - unfold transcribeAudio. rewrite Hf. apply (run_attemptCalls [] s). constructor.
Qed.

(** ** Failures of the request and of the server *)

(** X4: a request that fails with an error that is not named
    [AbortError] and whose message holds [Failed to fetch], [NetworkError]
    or [TypeError] ends in the error state with the unable-to-connect
    message, keeps the error in its bundle, and raises the gateway
    notice. *)
Theorem network_failure_unreachable (s : AppState) (f : File.t) (e : JsError.t) :
  file s = Some f ->
  JsError.name e <> "AbortError" ->
  includes (JsError.message e) "Failed to fetch" = true \/
  includes (JsError.message e) "NetworkError" = true \/
  includes (JsError.message e) "TypeError" = true ->
  transcription (exec s (transcribeAudio s (Rejected (ThrownError e)))) =
    with_error
      "Unable to connect to the transcription service. Please visit the API URL first to bypass the ngrok warning page."
      (Some (ErrorDetails (JsError.name e) (JsError.message e) (JsError.stack e)
               (JsError.cause e) now)) /\
  showNgrokWarning (exec s (transcribeAudio s (Rejected (ThrownError e)))) = true.
Proof.
  intros Hf Hname Hmsg.
  rewrite (transcribeAudio_failed s f _ Hf). unfold classify.
  destruct (String.eqb_spec (JsError.name e) "AbortError") as [Hn|_]; [contradiction|].
  assert (includes (JsError.message e) "Failed to fetch" ||
          includes (JsError.message e) "NetworkError" ||
          includes (JsError.message e) "TypeError" = true) as ->.
  { rewrite !orb_true_iff. tauto. }
  split; reflexivity.
Qed.

Lemma includes_other (c k : ascii) (s kw : string) :
  c <> k -> includes (String c s) (String k kw) = includes s (String k kw).
Proof.
  intros Hck. cbn [includes String.prefix].
  destruct (ascii_dec k c) as [->|_]; [now elim Hck | reflexivity].
Qed.

(** A keyword cannot start inside a text that lacks its first character. *)
Lemma includes_past (p s kw : string) (k : ascii) :
  Forall (fun c => c <> k) (list_ascii_of_string p) ->
  includes (p ++ s) (String k kw) = includes s (String k kw).
Proof.
  induction p as [|c p IH]; intros Hp; [reflexivity|].
  inversion Hp as [|? ? Hc Hrest]; subst.
  change (String c p ++ s) with (String c (p ++ s)).
  rewrite (includes_other c k _ kw Hc). now apply IH.
Qed.

Lemma outside (k : ascii) (l : list ascii) :
  existsb (Ascii.eqb k) l = false -> forall c, In c l -> c <> k.
Proof.
  intros Hno c Hin ->.
  assert (existsb (Ascii.eqb k) l = true) as Hyes
    by (apply existsb_exists; exists k; split; [exact Hin | apply Ascii.eqb_refl]).
  congruence.
Qed.

Lemma digits_only (d : Decimal.uint) (k : ascii) :
  existsb (Ascii.eqb k) ["0"; "1"; "2"; "3"; "4"; "5"; "6"; "7"; "8"; "9"]%char = false ->
  Forall (fun c => c <> k) (list_ascii_of_string (NilEmpty.string_of_uint d)).
Proof.
  intros Hk. pose proof (outside k _ Hk) as Hdigit.
  induction d; cbn; constructor; try assumption;
    apply Hdigit; cbn; tauto.
Qed.

Lemma decimal_digits (n : N) (k : ascii) :
  existsb (Ascii.eqb k) ["0"; "1"; "2"; "3"; "4"; "5"; "6"; "7"; "8"; "9"]%char = false ->
  Forall (fun c => c <> k) (list_ascii_of_string (decimal n)).
Proof.
  intros Hk. unfold decimal, NilZero.string_of_uint.
  destruct (N.to_uint n) eqn:E; try (rewrite <- E; now apply digits_only).
  cbn. constructor; [|constructor].
  intros Heq. subst k. discriminate.
Qed.

(** The heading [Server error (status): ] hides no keyword of the catch
    block: a keyword is in the message exactly when it is in the text. *)
Lemma includes_server_error (status : N) (text kw : string) (k : ascii) :
  existsb (Ascii.eqb k)
    ("S" :: "e" :: "r" :: "v" :: "o" :: " " :: "(" :: ")" :: ":" ::
     ["0"; "1"; "2"; "3"; "4"; "5"; "6"; "7"; "8"; "9"])%char = false ->
  includes ("Server error (" ++ decimal status ++ "): " ++ text) (String k kw) =
    includes text (String k kw).
Proof.
  intros Hk. pose proof (outside k _ Hk) as Hout.
  rewrite (includes_past "Server error (" _ kw k).
  2:{ repeat constructor; apply Hout; cbn; tauto. }
  rewrite (includes_past (decimal status) _ kw k).
  2:{ apply decimal_digits. cbn in Hk |- *.
      repeat (apply orb_false_iff in Hk as [? Hk]).
      repeat (apply orb_false_iff; split; try assumption). }
  apply (includes_past "): " text kw k).
  repeat constructor; apply Hout; cbn; tauto.
Qed.

(** The log of a response that is not [ok] and does not look like the
    gateway page. *)
Lemma transcribeAudio_server_error (s : AppState) (f : File.t) (r : Response.t)
      (text : string) :
  file s = Some f ->
  Response.ok r = false ->
  completion (readErrorText r) = Normal text ->
  looksLikeNgrokPage text = false ->
  transcribeAudio s (Resolved r) =
    ((sent f ++ ClearTimeout :: (if declaresJson r then ReadJson else ReadText) ::
      calls (classify
               (new_Error ("Server error (" ++ decimal (Response.status r) ++ "): " ++ text))))%list,
     Normal tt).
Proof.
  intros Hf Hok Hread Hpage.
  destruct (readErrorText_shape r) as (text' & Hshape).
  rewrite Hshape in Hread. injection Hread as ->.
  destruct (classify_shape
              (new_Error ("Server error (" ++ decimal (Response.status r) ++ "): " ++ text)))
    as (raise & msg & d & Hc & _).
  unfold transcribeAudio, attempt, fetch, rejectResponse. rewrite Hf.
  cbn -[readErrorText classify new_Error append]. rewrite Hok.
  cbn -[readErrorText classify new_Error append]. rewrite Hshape.
  cbn -[classify new_Error append]. rewrite Hpage.
  cbn -[classify new_Error append]. rewrite Hc. reflexivity.
Qed.

(** X5: for a response with a status outside 200-299, when the text
    obtained for its body holds no marker of the gateway page and none of
    the four keywords that the catch block looks for, the error message is
    [Server error (status): text], with the status in decimal, and the
    gateway notice stays as it was. *)
Theorem server_error_reported (s : AppState) (f : File.t) (r : Response.t) (text : string) :
  file s = Some f ->
  Response.ok r = false ->
  completion (readErrorText r) = Normal text ->
  looksLikeNgrokPage text = false ->
  includes text "Failed to fetch" = false ->
  includes text "NetworkError" = false ->
  includes text "TypeError" = false ->
  includes text "ngrok warning" = false ->
  error (transcription (exec s (transcribeAudio s (Resolved r)))) =
    Some ("Server error (" ++ decimal (Response.status r) ++ "): " ++ text) /\
  fullError (transcription (exec s (transcribeAudio s (Resolved r)))) =
    Some (ErrorDetails "Error"
            ("Server error (" ++ decimal (Response.status r) ++ "): " ++ text)
            stack_trace JUndefined now) /\
  showNgrokWarning (exec s (transcribeAudio s (Resolved r))) = showNgrokWarning s.
Proof.
  intros Hf Hok Hread Hpage H1 H2 H3 H4.
  rewrite (transcribeAudio_server_error s f r text Hf Hok Hread Hpage).
  unfold classify, new_Error. cbn [JsError.name JsError.message JsError.stack JsError.cause].
  change (String.eqb "Error" "AbortError") with false. cbv iota.
  rewrite !includes_server_error by reflexivity.
  rewrite H1, H2, H3, H4.
  destruct (declaresJson r); repeat split.
Qed.

(** X6: when the text obtained from a response with a status outside
    200-299 holds [Failed to fetch], [NetworkError] or [TypeError] (and no
    marker of the gateway page), the answer of the server is reported as a
    failure to connect: the message is the unable-to-connect one and the
    gateway notice is raised; the server's status and text are kept in the
    bundle only. *)
Theorem server_text_reclassified (s : AppState) (f : File.t) (r : Response.t) (text : string) :
  file s = Some f ->
  Response.ok r = false ->
  completion (readErrorText r) = Normal text ->
  looksLikeNgrokPage text = false ->
  includes text "Failed to fetch" = true \/
  includes text "NetworkError" = true \/
  includes text "TypeError" = true ->
  error (transcription (exec s (transcribeAudio s (Resolved r)))) = Some unreachable /\
  fullError (transcription (exec s (transcribeAudio s (Resolved r)))) =
    Some (ErrorDetails "Error"
            ("Server error (" ++ decimal (Response.status r) ++ "): " ++ text)
            stack_trace JUndefined now) /\
  showNgrokWarning (exec s (transcribeAudio s (Resolved r))) = true.
Proof.
  intros Hf Hok Hread Hpage Hkw.
  rewrite (transcribeAudio_server_error s f r text Hf Hok Hread Hpage).
  unfold classify, new_Error. cbn [JsError.name JsError.message JsError.stack JsError.cause].
  change (String.eqb "Error" "AbortError") with false. cbv iota.
  rewrite !includes_server_error by reflexivity.
  assert (includes text "Failed to fetch" || includes text "NetworkError" ||
          includes text "TypeError" = true) as ->.
  { rewrite !orb_true_iff. tauto. }
  destruct (declaresJson r); repeat split.
Qed.

(** X8: a response with a status in 200-299 whose body cannot be read, or
    does not parse as JSON, ends in the error state with the message
    [Invalid response format from server]; the error that reading or
    parsing threw is dropped (the bundle holds the new error), and the
    gateway notice stays as it was. *)
Theorem unusable_body_invalid_format (s : AppState) (f : File.t) (r : Response.t) :
  file s = Some f ->
  Response.ok r = true ->
  (exists e, Response.body r = inl e) \/
  (exists body e, Response.body r = inr body /\ JSON_parse body = inl e) ->
  transcription (exec s (transcribeAudio s (Resolved r))) =
    with_error "Invalid response format from server"
      (Some (ErrorDetails "Error" "Invalid response format from server"
               stack_trace JUndefined now)) /\
  showNgrokWarning (exec s (transcribeAudio s (Resolved r))) = showNgrokWarning s.
Proof.
  intros Hf Hok Hbody.
  assert (acceptResponse r =
            ([SetTranscription (with_progress Processing 50); ReadText],
             Throw (new_Error "Invalid response format from server"))) as Ha.
  { unfold acceptResponse, text, parse.
    destruct Hbody as [(e & ->) | (body & e & -> & Hp)]; cbn -[new_Error];
      [reflexivity | now rewrite Hp]. }
  rewrite (transcribeAudio_ok s f r Hf Hok), Ha. split; reflexivity.
Qed.

End Attempts.

(** ** Choosing and dropping files *)

Section Choosing.
Context `{Platform}.

Lemma runUi_core (l : list Call) (s : AppState) :
  fold_left applyUi (map Core l) s = fold_left apply l s.
Proof.
  revert s; induction l as [|c l IH]; intros s; [reflexivity | apply IH].
Qed.

Lemma handleFileSelect_cases (f : File.t) :
  (acceptable f = false /\
   exists reason, calls (handleFileSelect f) = [SetTranscription (with_error reason None)]) \/
  (acceptable f = true /\
   calls (handleFileSelect f) =
     [SetFile (Some f); SetAudioUrl (Some (createObjectURL f));
      SetTranscription (just Idle); SetIsPlaying false]).
Proof.
  unfold acceptable.
  destruct (startsWith (File.type f) "audio/") eqn:Ht.
  - destruct (N.leb_spec (File.size f) MAX_SIZE) as [Hs|Hs].
    + right. split; [reflexivity | now apply accept_file].
    + left. split; [reflexivity|]. exists tooLarge. now apply reject_too_large.
  - left. split; [reflexivity|]. exists invalidType. now apply reject_invalid_type.
Qed.

(** X9: a candidate that passes both tests becomes the selected file with
    a new audio source; the Request State goes back to idle, so a
    transcript or an error of an earlier attempt is discarded, and playback
    is marked stopped.  The gateway notice and the debug panel flag are
    not reset. *)
Theorem valid_file_selected (s : AppState) (f : File.t) :
  startsWith (File.type f) "audio/" = true ->
  (File.size f <= 25 * 1024 * 1024)%N ->
  exec s (handleFileSelect f) =
    {| file := Some f;
       audioUrl := Some (createObjectURL f);
       isPlaying := false;
       transcription := {| status := Idle; transcript := None; error := None;
                           progress := None; fullError := None |};
       isDragOver := isDragOver s;
       copySuccess := copySuccess s;
       showNgrokWarning := showNgrokWarning s;
       showDebugInfo := showDebugInfo s;
       fileInput := fileInput s |}.
Proof.
  intros Ht Hs. unfold exec. now rewrite (accept_file f Ht Hs).
Qed.

(** X10: a drop looks at the first dropped file only: the selection after
    the drop is that file when it passes both tests, and the selection of
    before otherwise, whatever the other dropped files are; an empty drop
    selects nothing.  In every case the drag-hover flag is lowered.  The
    file input behaves the same way, without the drag-hover flag. *)
Theorem drop_takes_first_file (s : AppState) (files : list File.t) :
  file (runUi s (handleDrop files)) =
    match files with
    | first :: _ => if acceptable first then Some first else file s
    | [] => file s
    end /\
  isDragOver (runUi s (handleDrop files)) = false /\
  runUi s (onChange files) =
    match files with
    | first :: _ => exec s (handleFileSelect first)
    | [] => s
    end /\
  file (runUi s (onChange files)) = file (runUi s (handleDrop files)).
Proof.
  destruct files as [|first others]; [now repeat split|].
  unfold handleDrop, onChange, runUi, exec. cbn [fold_left].
  rewrite !runUi_core.
  destruct (handleFileSelect_cases first) as [[-> (reason & ->)] | [-> ->]];
    now repeat split.
Qed.

End Choosing.

(** ** What always holds *)

Section Always.
Context `{Platform}.

Lemma segments_forall (P : Call -> Prop) (l : list Call) :
  Forall P l -> Forall (Forall P) (segments l).
Proof.
  induction 1 as [|c l Hc _ IH]; [now repeat constructor|].
  cbn [segments]. destruct (awaited c).
  - constructor; [now repeat constructor | exact IH].
  - destruct (segments l) as [|seg more]; [now repeat constructor|].
    inversion IH; subst. constructor; [now constructor | assumption].
Qed.

Lemma transcribeAudio_attemptCalls (s : AppState) (settled : FetchOutcome) :
  Forall attemptCall (calls (transcribeAudio s settled)).
Proof.
  destruct (file s) as [f|] eqn:Hf.
  - apply (attemptLog_calls f). now apply transcribeAudio_attemptLog.
  - unfold transcribeAudio. rewrite Hf. constructor.
Qed.

(** The part of [consistent] that speaks of the state alone. *)
Lemma kept_by_attemptCalls (s : AppState) (l : list Call) :
  Forall attemptCall l ->
  (file s = None <-> audioUrl s = None) ->
  (isPlaying s = true -> audioUrl s <> None) ->
  wellFormed (transcription s) ->
  (file (run s l) = None <-> audioUrl (run s l) = None) /\
  (isPlaying (run s l) = true -> audioUrl (run s l) <> None) /\
  wellFormed (transcription (run s l)).
Proof.
  intros Hl Hfile Hplay Hwf.
  destruct (run_attemptCalls l s Hl) as [(H1 & H2 & H3 & _) Hw].
  unfold run. rewrite H1, H2, H3. repeat split; try tauto.
Qed.

Lemma suspend_forall (rest : list (list Call)) :
  Forall (Forall attemptCall) rest ->
  Forall (Forall (Forall attemptCall)) (suspend rest).
Proof.
  intros Hr. destruct rest; cbn; [constructor|].
  constructor; [exact Hr | constructor].
Qed.

Lemma resumeAt_consistent (i : nat) (ps : list (list (list Call))) (s : AppState) :
  Forall (Forall (Forall attemptCall)) ps ->
  (file s = None <-> audioUrl s = None) ->
  (isPlaying s = true -> audioUrl s <> None) ->
  wellFormed (transcription s) ->
  consistent {| app := fst (resumeAt i ps s); pending := snd (resumeAt i ps s) |}.
Proof.
  intros Hps Hfile Hplay Hwf. revert i.
  induction Hps as [|p others Hp Hothers IH]; intros i.
  - destruct i; cbn; unfold consistent; cbn; repeat split; try tauto; constructor.
  - destruct i as [|j]; cbn [resumeAt].
    + destruct p as [|seg rest]; cbn [fst snd].
      * unfold consistent; cbn. repeat split; try tauto.
      * inversion Hp as [|? ? Hseg Hrest]; subst.
        destruct (kept_by_attemptCalls s seg Hseg Hfile Hplay Hwf) as (K1 & K2 & K3).
        unfold consistent; cbn [app pending]. repeat split; try tauto.
        apply Forall_app. split; [now apply suspend_forall | assumption].
    + specialize (IH j). destruct (resumeAt j others s) as [s' others'].
      destruct IH as (K1 & K2 & K3 & K4). cbn in K1, K2, K3, K4.
      unfold consistent; cbn [app pending fst snd]. repeat split; try tauto.
      now constructor.
Qed.

Lemma click_consistent (settled : FetchOutcome) (w : World) :
  consistent w -> consistent (click settled w).
Proof.
  intros Hw. unfold click.
  destruct (audioUrl (app w)); [|exact Hw].
  destruct (transcribeDisabled (app w)); [exact Hw|].
  unfold submit.
  pose proof (segments_forall attemptCall _
                (transcribeAudio_attemptCalls (app w) settled)) as Hsegs.
  destruct (segments (calls (transcribeAudio (app w) settled))) as [|seg rest];
    [exact Hw|].
  inversion Hsegs as [|? ? Hseg Hrest]; subst.
  destruct Hw as (Hfile & Hplay & Hwf & Hps).
  destruct (kept_by_attemptCalls (app w) seg Hseg Hfile Hplay Hwf) as (K1 & K2 & K3).
  unfold consistent; cbn [app pending]. repeat split; try tauto.
  apply Forall_app. split; [assumption | now apply suspend_forall].
Qed.

Lemma choose_consistent (s : AppState) (l : list UiCall) (first : File.t)
      (ps : list (list (list Call))) :
  consistent {| app := s; pending := ps |} ->
  consistent {| app := fold_left applyUi (map Core (calls (handleFileSelect first))) s;
                pending := ps |}.
Proof.
  intros (Hfile & Hplay & Hwf & Hps). cbn in Hfile, Hplay, Hwf, Hps.
  rewrite runUi_core.
  destruct (handleFileSelect_cases first) as [[_ (reason & ->)] | [_ ->]];
    unfold consistent; cbn; repeat split; try tauto; try discriminate.
  now exists reason.
Qed.

Lemma handle_consistent (w : World) (e : Event) :
  consistent w -> consistent (handle w e).
Proof.
  intros Hw. pose proof Hw as (Hfile & Hplay & Hwf & Hps).
  destruct e as [files|files| | | | |settled|i| | |]; cbn [handle].
  - destruct files as [|first others]; [destruct w; exact Hw|].
    destruct w as [s ps]. now apply (choose_consistent s []).
  - destruct w as [s ps]. unfold onApp, handleDrop, runUi. cbn [fold_left app pending].
    destruct files as [|first others].
    + repeat split; tauto.
    + apply (choose_consistent _ []). repeat split; tauto.
  - repeat split; tauto.
  - repeat split; tauto.
  - unfold onApp, togglePlayPause, showsPlayer.
    destruct (audioUrl (app w)) eqn:Hu; [|destruct w; exact Hw].
    unfold consistent; destruct (isPlaying (app w)); cbn; rewrite Hu;
      repeat split; try tauto; try discriminate.
  - destruct (showsPlayer (app w)); [|exact Hw].
    unfold consistent; cbn. repeat split; try tauto; discriminate.
  - now apply click_consistent.
  - unfold resume.
    pose proof (resumeAt_consistent i (pending w) (app w) Hps Hfile Hplay Hwf) as Hr.
    now destruct (resumeAt i (pending w) (app w)).
  - destruct (showsReset (app w)); [|exact Hw].
    unfold consistent, onApp, runUi. rewrite runUi_core. cbn.
    repeat split; try tauto; try discriminate.
  - destruct (showsDebugToggle (app w)); [|exact Hw]. repeat split; tauto.
  - destruct (showsNotice (app w)); [|exact Hw]. repeat split; tauto.
Qed.

Lemma run_consistent (events : list Event) (w : World) :
  consistent w -> consistent (fold_left handle events w).
Proof.
  revert w; induction events as [|e events IH]; intros w Hw; [exact Hw|].
  cbn [fold_left]. apply IH. now apply handle_consistent.
Qed.

Lemma mounted_consistent : consistent mounted.
Proof. unfold consistent; cbn. repeat split; try tauto; try discriminate. constructor. Qed.

(** X11: whatever happens to the component after mounting (files chosen
    or dropped, drags, playback, clicks on Transcribe, Reset, Debug Info
    and the notice, requests settling in any order), a file is selected
    exactly when an audio source is set, playback is never marked running
    without an audio source, the Request State is well formed (the
    progress is 0 with uploading, 50 with processing and 100 with success, a
    transcript is there only with success and is truthy, a message only
    with error), and every suspended attempt will only touch the Request
    State and the notice. *)
Theorem always_consistent (events : list Event) :
  consistent (fold_left handle events mounted).
Proof. apply run_consistent, mounted_consistent. Qed.

(** X12: in every state the component can reach, when the page can be
    rendered, the player with the Transcribe button is on it exactly when
    a file is selected, the transcript panel is on it exactly when the
    status is success, and [downloadTranscript] has something to save
    exactly then.  Rendering fails only in a success state whose
    transcript React cannot render (an object, or an array that holds
    one); then nothing is left on the page. *)
Theorem views_follow_status (events : list Event) :
  match render (app (fold_left handle events mounted)) with
  | Some page =>
      player page =
        match file (app (fold_left handle events mounted)) with
        | Some _ => true
        | None => false
        end /\
      transcriptPanel page =
        Status_eqb (status (transcription (app (fold_left handle events mounted)))) Success /\
      match downloadTranscript (app (fold_left handle events mounted)) with
      | Some _ => true
      | None => false
      end = transcriptPanel page
  | None =>
      exists t,
        transcription (app (fold_left handle events mounted)) = with_transcript t 100 /\
        truthy t = true /\ renderable t = false
  end.
Proof.
  destruct (run_consistent events mounted mounted_consistent) as (Hfile & _ & Hwf & _).
  set (s := app (fold_left handle events mounted)) in *. clearbody s.
  assert (showsPlayer s = match file s with Some _ => true | None => false end) as Hplayer.
  { unfold showsPlayer. destruct (file s), (audioUrl s); try reflexivity.
    - destruct Hfile as [_ Hfile]. now specialize (Hfile eq_refl).
    - destruct Hfile as [Hfile _]. now specialize (Hfile eq_refl). }
  unfold render, renderThrows, showsTranscript, renderThrows, transcriptGuard,
    downloadTranscript, wellFormed in *.
  destruct (status (transcription s)) eqn:Hs.
  - rewrite Hwf. cbn. now repeat split.
  - rewrite Hwf. cbn. now repeat split.
  - rewrite Hwf. cbn. now repeat split.
  - destruct Hwf as (v & Hv & Ht). rewrite Ht. cbn. rewrite Hv. cbn.
    destruct (renderable v) eqn:Hr; cbn.
    + now repeat split.
    + exists v. now repeat split.
  - destruct Hwf as (msg & Ht). rewrite Ht. cbn. now repeat split.
Qed.

(** X13: choosing an acceptable file sets the status to idle and so
    enables the Transcribe button, whatever is pending: the next click
    always puts one more request in flight.  Through the page alone the
    number of requests in flight is therefore not bounded. *)
Theorem choosing_enables_another_request (w : World) (f : File.t) (settled : FetchOutcome) :
  acceptable f = true ->
  inFlight (handle (handle w (Choose [f])) (PressTranscribe settled)) = S (inFlight w).
Proof.
  intros Hok. cbn [handle]. unfold onApp, onChange, runUi. rewrite runUi_core.
  destruct (handleFileSelect_cases f) as [[Hno _] | [_ ->]]; [congruence|].
  unfold click. cbn [app audioUrl fold_left apply]. cbn [transcribeDisabled transcription status just].
  rewrite submit_adds_request; [reflexivity | discriminate].
Qed.

End Always.

(** ** Reset while a request is in flight *)

Section Stale.
Context `{Platform}.

(** The segments of an attempt: [sent], at most one segment that ends at the
    read of the body, and a last one that ends by storing the result. *)
Lemma attemptLog_segments (f : File.t) (l : list Call) :
  attemptLog f l ->
  exists mid tail t,
    segments l = sent f :: (mid ++ [tail ++ [SetTranscription t]])%list /\
    (mid = [] \/ exists m, mid = [m] /\ Forall attemptCall m) /\
    Forall attemptCall tail /\
    l = (sent f ++ concat mid ++ tail ++ [SetTranscription t])%list.
Proof.
  assert (forall raise, Forall (fun c => c = SetShowNgrokWarning true) raise ->
                        Forall attemptCall raise) as Hraise.
  { intros raise Hr. eapply Forall_impl; [|exact Hr]. now intros c ->. }
  intros [raise msg d Hr | read raise msg d Hd Hr | raise msg d Hr | chosen Hc].
  - exists [], raise, (with_error msg (Some d)).
    pose proof (segments_plain _ (plain_raise raise (with_error msg (Some d)) Hr)) as Hs.
    repeat split; [cbn -[app]; now rewrite Hs | now left | now apply Hraise].
  - exists [[ClearTimeout; read]], raise, (with_error msg (Some d)).
    pose proof (segments_plain _ (plain_raise raise (with_error msg (Some d)) Hr)) as Hs.
    repeat split;
      [destruct read; try discriminate; cbn -[app]; now rewrite Hs | | now apply Hraise].
    right. eexists. split; [reflexivity|]. now destruct read; repeat constructor.
  - exists [[ClearTimeout; SetTranscription (with_progress Processing 50); ReadText]],
      raise, (with_error msg (Some d)).
    pose proof (segments_plain _ (plain_raise raise (with_error msg (Some d)) Hr)) as Hs.
    repeat split; [cbn -[app]; now rewrite Hs | | now apply Hraise].
    right. eexists. split; [reflexivity|]. now repeat constructor.
  - exists [[ClearTimeout; SetTranscription (with_progress Processing 50); ReadText]],
      [], (with_transcript chosen 100).
    repeat split; [|constructor].
    right. eexists. split; [reflexivity|]. now repeat constructor.
Qed.

(** X14: Reset does not cancel an attempt.  After a click on Transcribe,
    a click on Reset, and the settling of what the attempt awaits, no file
    is selected and nothing is in flight, but the Request State is the
    result of the attempt, success or error, exactly as if Reset had not
    been pressed. *)
Theorem result_arrives_after_reset (w : World) (f : File.t) (settled : FetchOutcome) :
  file (app w) = Some f ->
  audioUrl (app w) <> None ->
  transcribeDisabled (app w) = false ->
  pending w = [] ->
  file (app (fold_left handle
               [PressTranscribe settled; PressReset; Settled 0; Settled 0] w)) = None /\
  pending (fold_left handle
             [PressTranscribe settled; PressReset; Settled 0; Settled 0] w) = [] /\
  transcription (app (fold_left handle
                        [PressTranscribe settled; PressReset; Settled 0; Settled 0] w)) =
    transcription (exec (app w) (transcribeAudio (app w) settled)) /\
  (status (transcription (exec (app w) (transcribeAudio (app w) settled))) = Success \/
   status (transcription (exec (app w) (transcribeAudio (app w) settled))) = Error).
Proof.
  intros Hf Hu Hd Hp.
  destruct (transcribeAudio_attemptLog (app w) f settled Hf) as [Hlog _].
  destruct (attemptLog_segments f _ Hlog) as (mid & tail & t & Hsegs & Hmid & Htail & Hl).
  assert (transcription (exec (app w) (transcribeAudio (app w) settled)) = t) as Ht.
  { unfold exec. rewrite Hl, !app_assoc. apply run_last. }
  assert (status t = Success \/ status t = Error) as Hend.
  { destruct (attemptLog_end f _ Hlog) as (l' & t' & Hl' & Ht').
    assert (t = t') as <-.
    { rewrite <- Ht. unfold exec. rewrite Hl'. apply run_last. }
    destruct Ht' as [(msg & d & ->) | (chosen & _ & ->)]; [now right | now left]. }
  rewrite Ht in *. clear Ht.
  cbn [fold_left handle]. unfold click.
  destruct (audioUrl (app w)) eqn:Eu; [clear Hu | now elim Hu].
  rewrite Hd. unfold submit. rewrite Hsegs, Hp.
  assert (showsReset (run (app w) (sent f)) = true) as Hshown.
  { unfold showsReset. cbn. now rewrite Hf. }
  cbn [app pending]. rewrite Hshown. unfold onApp, runUi. rewrite runUi_core.
  cbn [app pending List.app].
  destruct Hmid as [-> | (m & -> & Hm)]; cbn [List.app suspend];
    unfold resume; cbn [app pending resumeAt suspend List.app].
  - destruct (run_attemptCalls tail (fold_left apply (calls resetApp) (run (app w) (sent f))) Htail)
      as [(Hfile & _) _].
    unfold run in *. rewrite fold_left_app. cbn [fold_left apply file transcription].
    repeat split; [rewrite Hfile; reflexivity | exact Hend].
  - destruct (run_attemptCalls (m ++ tail)
                (fold_left apply (calls resetApp) (run (app w) (sent f))))
      as [(Hfile & _) _]; [now apply Forall_app|].
    unfold run in *. rewrite fold_left_app in Hfile.
    rewrite fold_left_app. cbn [fold_left apply file transcription].
    repeat split; [rewrite Hfile; reflexivity | exact Hend].
Qed.

End Stale.

(** ** The name of the downloaded transcript *)

Section Downloads.
Context `{Platform}.

Lemma plain_extension (s : string) :
  matchItems [Many (NoneOf ["/"; "."]%char); End_] s =
    match s with
    | EmptyString => None
    | String _ _ => if plain s then Some EmptyString else None
    end.
Proof.
  induction s as [|c s IH]; [reflexivity|].
  change (matchItems [Many (NoneOf ["/"; "."]%char); End_] (String c s))
    with (if accepts (NoneOf ["/"; "."]%char) c then
            match matchItems [Many (NoneOf ["/"; "."]%char); End_] s with
            | Some after => Some after
            | None => matchItems [End_] s
            end
          else None).
  rewrite IH. cbn [plain accepts].
  destruct (negb (existsb (Ascii.eqb c) ["/"; "."]%char)); [|reflexivity].
  destruct s as [|c' s']; [reflexivity|].
  cbn [andb]. now destruct (plain (String c' s')).
Qed.

(** Where the pattern of line 293 matches: at a dot followed by one or more
    characters, none of them a dot or a slash, up to the end. *)
Lemma extension_match (s : string) :
  matchItems extensionPattern s =
    match s with
    | String c (String c' rest) =>
        if Ascii.eqb c "." && plain (String c' rest) then Some EmptyString else None
    | _ => None
    end.
Proof.
  destruct s as [|c s]; [reflexivity|].
  change (matchItems extensionPattern (String c s))
    with (if accepts (Lit ".") c then matchItems [Many (NoneOf ["/"; "."]%char); End_] s
          else None).
  rewrite plain_extension. cbn [accepts].
  destruct (Ascii.eqb c "."), s; reflexivity.
Qed.

Lemma not_plain_with_dot (base ext : string) : plain (base ++ "." ++ ext) = false.
Proof.
  induction base as [|c base IH]; [reflexivity|].
  change (String c base ++ "." ++ ext) with (String c (base ++ "." ++ ext)).
  cbn [plain]. rewrite IH. apply andb_false_r.
Qed.

Lemma replaceFirst_step (pattern : list Item) (replacement : string) (c : ascii) (s : string) :
  replaceFirst pattern replacement (String c s) =
    match matchItems pattern (String c s) with
    | Some after => replacement ++ after
    | None => String c (replaceFirst pattern replacement s)
    end.
Proof. reflexivity. Qed.

Lemma append_empty (s : string) : s ++ EmptyString = s.
Proof. induction s as [|c s IH]; [reflexivity | cbn; now rewrite IH]. Qed.

(** Replacing the extension, with any replacement. *)
Lemma replaceFirst_extension (replacement base ext : string) :
  ext <> EmptyString ->
  plain ext = true ->
  replaceFirst extensionPattern replacement (base ++ "." ++ ext) = base ++ replacement.
Proof.
  intros Hne Hplain. induction base as [|c base IH].
  - change (EmptyString ++ "." ++ ext) with (String "." ext).
    rewrite replaceFirst_step, extension_match.
    destruct ext as [|e ext]; [contradiction|].
    change (("." =? ".")%char) with true. cbn [andb]. rewrite Hplain.
    cbn. now rewrite append_empty.
  - change (String c base ++ "." ++ ext) with (String c (base ++ "." ++ ext)).
    rewrite replaceFirst_step, extension_match.
    destruct (base ++ "." ++ ext) as [|c' rest] eqn:E.
    + destruct base; discriminate.
    + rewrite <- E in *. rewrite not_plain_with_dot, andb_false_r. now rewrite IH.
Qed.

(** X15: the name of a file that ends in a dot and an extension (one or
    more characters, none a dot or a slash) loses exactly that last
    extension, whatever comes before it: earlier dots stay. *)
Theorem strip_last_extension (base ext : string) :
  ext <> EmptyString ->
  plain ext = true ->
  stripExtension (base ++ "." ++ ext) = base.
Proof.
  intros Hne Hplain. unfold stripExtension.
  rewrite (replaceFirst_extension EmptyString base ext Hne Hplain).
  apply append_empty.
Qed.

Lemma downloadName_stripped (f : File.t) (base ext : string) :
  File.name f = base ++ "." ++ ext ->
  ext <> EmptyString ->
  plain ext = true ->
  downloadName (Some f) = "transcript-" ++ orElse base "audio" ++ ".txt".
Proof.
  intros Hn Hne Hp. unfold downloadName, stripExtension.
  now rewrite Hn, (replaceFirst_extension EmptyString base ext Hne Hp), append_empty.
Qed.

(** X16: nothing else is ever removed: the stripped name is the name
    itself, or the name is a base, a dot and an extension of one or more
    characters without dot or slash, and the stripped name is the base. *)
Theorem strip_only_extension (name : string) :
  stripExtension name = name \/
  exists base ext,
    name = base ++ "." ++ ext /\ ext <> EmptyString /\ plain ext = true /\
    stripExtension name = base.
Proof.
  unfold stripExtension. induction name as [|c name IH]; [now left|].
  rewrite replaceFirst_step, extension_match.
  destruct name as [|c' rest] eqn:E; [now left|]. rewrite <- E in *.
  destruct (Ascii.eqb_spec c ".") as [->|Hc]; cbn [andb].
  - destruct (plain name) eqn:Hp.
    + right. exists EmptyString, name. subst name. now repeat split.
    + destruct IH as [-> | (base & ext & Hn & Hne & Hpl & ->)]; [now left|].
      right. exists (String "." base), ext. rewrite Hn. now repeat split.
  - destruct IH as [-> | (base & ext & Hn & Hne & Hpl & ->)]; [now left|].
    right. exists (String c base), ext. rewrite Hn. now repeat split.
Qed.

(** X17: the transcript of a file named base.ext is saved as
    [transcript-base.txt]; when the base is empty (a name such as [.mp3])
    the name is [transcript-audio.txt], the name also used when no file is
    selected. *)
Theorem download_name_of_file (f : File.t) (base ext : string) :
  File.name f = base ++ "." ++ ext ->
  ext <> EmptyString ->
  plain ext = true ->
  downloadName (Some f) = "transcript-" ++ orElse base "audio" ++ ".txt" /\
  (base = EmptyString -> downloadName (Some f) = downloadName None).
Proof.
  intros Hn Hne Hp. rewrite (downloadName_stripped f base ext Hn Hne Hp).
  split; [reflexivity | now intros ->].
Qed.

(** X18: the download is named after the file that is selected when
    [downloadTranscript] runs, not after the file the attempt was started
    with.  When an acceptable file [g] is chosen while the attempt for [f]
    is pending, then once the attempt has settled the file selected is
    [g], the Request State is the result of the attempt for [f], and
    [downloadTranscript] saves the transcript of that attempt, if it
    succeeded, as [text/plain] under the name made from [g]; after an
    error it saves nothing. *)
Theorem download_named_after_selected_file (w : World) (f g : File.t)
        (settled : FetchOutcome) :
  file (app w) = Some f ->
  audioUrl (app w) <> None ->
  transcribeDisabled (app w) = false ->
  pending w = [] ->
  acceptable g = true ->
  file (app (fold_left handle
               [PressTranscribe settled; Choose [g]; Settled 0; Settled 0] w)) = Some g /\
  transcription (app (fold_left handle
                        [PressTranscribe settled; Choose [g]; Settled 0; Settled 0] w)) =
    transcription (exec (app w) (transcribeAudio (app w) settled)) /\
  downloadTranscript (app (fold_left handle
                             [PressTranscribe settled; Choose [g]; Settled 0; Settled 0] w)) =
    option_map
      (fun t => {| filename := downloadName (Some g); content := t;
                   mimeType := "text/plain" |})
      (transcript (transcription (exec (app w) (transcribeAudio (app w) settled)))).
Proof.
  intros Hf Hu Hd Hp Hg.
  destruct (transcribeAudio_attemptLog (app w) f settled Hf) as [Hlog _].
  destruct (attemptLog_segments f _ Hlog) as (mid & tail & t & Hsegs & Hmid & Htail & Hl).
  assert (transcription (exec (app w) (transcribeAudio (app w) settled)) = t) as Ht.
  { unfold exec. rewrite Hl, !app_assoc. apply run_last. }
  assert (transcript t = None \/ exists v, truthy v = true /\ transcript t = Some v) as Hstored.
  { destruct (attemptLog_end f _ Hlog) as (l' & t' & Hl' & Ht').
    assert (t = t') as <-.
    { rewrite <- Ht. unfold exec. rewrite Hl'. apply run_last. }
    destruct Ht' as [(msg & d & ->) | (chosen & Hc & ->)]; [now left | right; now exists chosen]. }
  rewrite Ht. clear Ht.
  cbn [fold_left handle]. unfold click.
  destruct (audioUrl (app w)) eqn:Eu; [clear Hu | now elim Hu].
  rewrite Hd. unfold submit. rewrite Hsegs, Hp.
  unfold onApp, onChange, runUi. rewrite runUi_core.
  destruct (handleFileSelect_cases g) as [[Hno _] | [_ Hcalls]]; [congruence|].
  rewrite Hcalls. cbn [app pending List.app].
  assert (forall rest s0,
            Forall attemptCall rest ->
            file s0 = Some g ->
            file (fold_left apply (rest ++ [SetTranscription t]) s0) = Some g /\
            transcription (fold_left apply (rest ++ [SetTranscription t]) s0) = t /\
            downloadTranscript (fold_left apply (rest ++ [SetTranscription t]) s0) =
              option_map
                (fun v => {| filename := downloadName (Some g); content := v;
                             mimeType := "text/plain" |}) (transcript t)) as Hfinal.
  { intros rest s0 Hrest Hs0.
    destruct (run_attemptCalls rest s0 Hrest) as [(Hfile & _) _].
    rewrite fold_left_app. cbn [fold_left apply]. unfold downloadTranscript.
    cbn [file transcription]. rewrite Hfile, Hs0.
    repeat split.
    destruct Hstored as [-> | (v & Hv & ->)]; [reflexivity | now rewrite Hv]. }
  destruct Hmid as [-> | (m & -> & Hm)]; cbn [List.app suspend];
    unfold resume; cbn [app pending resumeAt suspend List.app fst snd]; unfold run.
  - now apply Hfinal.
  - rewrite <- fold_left_app, app_assoc. apply Hfinal; [now apply Forall_app | reflexivity].
Qed.

(** X19: end to end: when a file named base.ext is selected and the
    response has a status in 200-299 and a body that parses to an object
    with a non-empty string [transcript], the download that is offered
    holds exactly that string and is named after the base of the file. *)
Theorem served_transcript_is_downloaded (s : AppState) (f : File.t) (r : Response.t)
        (body t base ext : string) (fields : list (string * JSValue)) :
  file s = Some f ->
  File.name f = base ++ "." ++ ext ->
  ext <> EmptyString ->
  plain ext = true ->
  Response.ok r = true ->
  Response.body r = inr body ->
  JSON_parse body = inr (JObject fields) ->
  lookup fields "transcript" = Some (JString t) ->
  t <> EmptyString ->
  downloadTranscript (exec s (transcribeAudio s (Resolved r))) =
    Some {| filename := "transcript-" ++ orElse base "audio" ++ ".txt";
            content := JString t;
            mimeType := "text/plain" |}.
Proof.
  intros Hf Hn Hne Hp Hok Hb Hparse Hfield Ht.
  rewrite (transcribeAudio_accept s f r body fields (JString t) Hf Hok Hb Hparse
             (truthy_string t Ht)).
  2:{ cbv zeta. rewrite Hfield. now rewrite (truthy_string t Ht). }
  unfold downloadTranscript, exec. cbn [calls fst fold_left apply transcription file
                                        with_transcript transcript].
  rewrite (truthy_string t Ht), Hf.
  now rewrite (downloadName_stripped f base ext Hn Hne Hp).
Qed.

End Downloads.

(** ** The gateway notice *)

Section Notice.
Context `{Platform}.

Lemma raised_after_attemptCalls (l : list Call) (s : AppState) :
  Forall attemptCall l ->
  showNgrokWarning s = true ->
  showNgrokWarning (run s l) = true.
Proof.
  intros Hl Hs. destruct (run_attemptCalls l s Hl) as [(_ & _ & _ & _ & _ & _ & _ & Hn) _].
  unfold run. rewrite Hs in Hn. exact Hn.
Qed.

Lemma resumeAt_raised (i : nat) (ps : list (list (list Call))) (s : AppState) :
  Forall (Forall (Forall attemptCall)) ps ->
  showNgrokWarning s = true ->
  showNgrokWarning (fst (resumeAt i ps s)) = true.
Proof.
  intros Hps Hs. revert i. induction Hps as [|p others Hp _ IH]; intros i.
  - now destruct i.
  - destruct i as [|j]; cbn [resumeAt].
    + destruct p as [|seg rest]; [exact Hs|].
      inversion Hp; subst. now apply raised_after_attemptCalls.
    + specialize (IH j). now destruct (resumeAt j others s).
Qed.

(** X20: once the gateway notice is raised it stays raised, whatever
    happens (other files chosen, further attempts started or settling,
    successes included), until the user presses the button of the notice
    or Reset. *)
Theorem notice_stays_until_dismissed (events : list Event) (e : Event) :
  showNgrokWarning (app (fold_left handle events mounted)) = true ->
  e <> PressReset ->
  e <> PressVisited ->
  showNgrokWarning (app (handle (fold_left handle events mounted) e)) = true.
Proof.
  destruct (run_consistent events mounted mounted_consistent) as (_ & _ & _ & Hps).
  set (w := fold_left handle events mounted) in *. clearbody w.
  intros Hn Hreset Hvisited.
  destruct e as [files|files| | | | |settled|i| | |]; cbn [handle];
    try contradiction; try exact Hn.
  - destruct files as [|first others]; [exact Hn|].
    unfold onApp, onChange, runUi. rewrite runUi_core.
    destruct (handleFileSelect_cases first) as [[_ (reason & ->)] | [_ ->]]; exact Hn.
  - unfold onApp, handleDrop, runUi. cbn [fold_left app].
    destruct files as [|first others]; [exact Hn|].
    rewrite runUi_core.
    destruct (handleFileSelect_cases first) as [[_ (reason & ->)] | [_ ->]]; exact Hn.
  - unfold onApp, togglePlayPause. destruct (showsPlayer (app w)); [|exact Hn].
    now destruct (isPlaying (app w)).
  - now destruct (showsPlayer (app w)).
  - unfold click. destruct (audioUrl (app w)); [|exact Hn].
    destruct (transcribeDisabled (app w)); [exact Hn|]. unfold submit.
    pose proof (segments_forall attemptCall _
                  (transcribeAudio_attemptCalls (app w) settled)) as Hsegs.
    destruct (segments (calls (transcribeAudio (app w) settled))) as [|seg rest];
      [exact Hn|].
    inversion Hsegs; subst. now apply raised_after_attemptCalls.
  - unfold resume.
    pose proof (resumeAt_raised i (pending w) (app w) Hps Hn) as Hr.
    now destruct (resumeAt i (pending w) (app w)).
  - now destruct (showsDebugToggle (app w)).
Qed.

End Notice.

(** ** More properties at concrete inputs *)

Lemma attempt_ends_settled_witness :
  match render (exec ready (@transcribeAudio tabulated ready (Resolved serverError))) with
  | Some page =>
      progressBar page = false /\
      transcriptPanel page = negb (errorPanel page) /\
      debugToggle page = errorPanel page
  | None =>
      exists t,
        transcription (exec ready (@transcribeAudio tabulated ready (Resolved serverError))) =
          with_transcript t 100 /\
        truthy t = true /\ renderable t = false
  end.
Proof.
  apply (@attempt_ends_settled tabulated ready (song 1000) (Resolved serverError) eq_refl).
Defined.

Lemma success_needs_transcript_witness :
  exists r body fields,
    Resolved helloResponse = Resolved r /\
    Response.ok r = true /\
    Response.body r = inr body /\
    @JSON_parse tabulated body = inr (JObject fields) /\
    truthy (transcriptOrText fields) = true /\
    transcription (exec ready (@transcribeAudio tabulated ready (Resolved helloResponse))) =
      with_transcript (transcriptOrText fields) 100.
Proof.
  apply (@success_needs_transcript tabulated ready (song 1000) (Resolved helloResponse));
    reflexivity.
Defined.

Lemma network_failure_unreachable_witness :
  showNgrokWarning
    (exec ready (@transcribeAudio tabulated ready (Rejected (ThrownError fetchFailed)))) = true.
Proof.
  apply (@network_failure_unreachable tabulated ready (song 1000) fetchFailed);
    [reflexivity | discriminate | left; reflexivity].
Defined.

Lemma server_error_reported_witness :
  error (transcription (exec ready (@transcribeAudio tabulated ready (Resolved serverError)))) =
    Some ("Server error (" ++ decimal 500 ++ "): " ++ "boom").
Proof.
  apply (@server_error_reported tabulated ready (song 1000) serverError "boom");
    reflexivity.
Defined.

Lemma server_text_reclassified_witness :
  error (transcription (exec ready (@transcribeAudio tabulated ready (Resolved traceback)))) =
    Some unreachable /\
  showNgrokWarning (exec ready (@transcribeAudio tabulated ready (Resolved traceback))) = true.
Proof.
  destruct (@server_text_reclassified tabulated ready (song 1000) traceback
              "TypeError: unsupported operand" eq_refl eq_refl eq_refl eq_refl
              (or_intror (or_intror eq_refl))) as (He & _ & Hn).
  split; [exact He | exact Hn].
Defined.

Lemma unusable_body_invalid_format_witness :
  transcription (exec ready (@transcribeAudio tabulated ready (Resolved pageAsSuccess))) =
    with_error "Invalid response format from server"
      (Some (ErrorDetails "Error" "Invalid response format from server" "Error" JUndefined
               "2024-01-01T00:00:00.000Z")).
Proof.
  apply (@unusable_body_invalid_format tabulated ready (song 1000) pageAsSuccess);
    try reflexivity.
  right. exists interstitial, syntaxError. split; reflexivity.
Defined.

Lemma valid_file_selected_witness :
  file (exec (rejected initial invalidType) (@handleFileSelect tabulated (song 1000))) =
    Some (song 1000) /\
  transcription (exec (rejected initial invalidType) (@handleFileSelect tabulated (song 1000))) =
    just Idle.
Proof.
  rewrite (@valid_file_selected tabulated (rejected initial invalidType) (song 1000));
    [split; reflexivity | reflexivity | discriminate].
Defined.

Lemma choosing_enables_another_request_witness :
  inFlight (@handle tabulated
              (@handle tabulated (@submit tabulated (Resolved helloResponse) quiet)
                 (Choose [song 2000]))
              (PressTranscribe (Resolved altResponse))) = 2%nat.
Proof.
  apply (@choosing_enables_another_request tabulated
           (@submit tabulated (Resolved helloResponse) quiet) (song 2000)
           (Resolved altResponse)).
  reflexivity.
Defined.

Lemma result_arrives_after_reset_witness :
  file (app (fold_left (@handle tabulated)
               [PressTranscribe (Resolved helloResponse); PressReset; Settled 0; Settled 0]
               quiet)) = None /\
  status (transcription
            (app (fold_left (@handle tabulated)
                    [PressTranscribe (Resolved helloResponse); PressReset; Settled 0; Settled 0]
                    quiet))) = Success.
Proof.
  destruct (@result_arrives_after_reset tabulated quiet (song 1000) (Resolved helloResponse)
              eq_refl) as (Hf & _ & Ht & _); try reflexivity; try discriminate.
  split; [exact Hf | now rewrite Ht].
Defined.

Lemma strip_last_extension_witness :
  stripExtension ("archive.tar" ++ "." ++ "gz") = "archive.tar".
Proof.
  apply strip_last_extension; [discriminate | reflexivity].
Defined.

Lemma download_name_of_file_witness :
  downloadName (Some (song 1000)) = "transcript-" ++ orElse "song" "audio" ++ ".txt".
Proof.
  apply (download_name_of_file (song 1000) "song" "mp3");
    [reflexivity | discriminate | reflexivity].
Defined.

Lemma download_named_after_selected_file_witness :
  file (app (fold_left (@handle tabulated)
               [PressTranscribe (Resolved helloResponse); Choose [song 2000];
                Settled 0; Settled 0] quiet)) = Some (song 2000) /\
  downloadTranscript
    (app (fold_left (@handle tabulated)
            [PressTranscribe (Resolved helloResponse); Choose [song 2000];
             Settled 0; Settled 0] quiet)) =
    option_map
      (fun t => {| filename := downloadName (Some (song 2000)); content := t;
                   mimeType := "text/plain" |})
      (transcript (transcription
                     (exec ready (@transcribeAudio tabulated ready (Resolved helloResponse))))).
Proof.
  destruct (@download_named_after_selected_file tabulated quiet (song 1000) (song 2000)
              (Resolved helloResponse) eq_refl) as (Hf & _ & Hd);
    try reflexivity; try discriminate.
  split; [exact Hf | exact Hd].
Defined.

Lemma served_transcript_is_downloaded_witness :
  downloadTranscript (exec ready (@transcribeAudio tabulated ready (Resolved helloResponse))) =
    Some {| filename := "transcript-" ++ orElse "song" "audio" ++ ".txt";
            content := JString "hello world";
            mimeType := "text/plain" |}.
Proof.
  apply (@served_transcript_is_downloaded tabulated ready (song 1000) helloResponse
           (field "transcript" "hello world") "hello world" "song" "mp3"
           [("transcript", JString "hello world")]);
    try reflexivity; discriminate.
Defined.

Lemma notice_stays_until_dismissed_witness :
  showNgrokWarning
    (app (@handle tabulated
            (fold_left (@handle tabulated)
               [Choose [song 1000]; PressTranscribe (Resolved blockedPage); Settled 0; Settled 0]
               mounted)
            (Choose [song 2000]))) = true.
Proof.
  apply (@notice_stays_until_dismissed tabulated
           [Choose [song 1000]; PressTranscribe (Resolved blockedPage); Settled 0; Settled 0]
           (Choose [song 2000])); [reflexivity | discriminate | discriminate].
Defined.
